(** * sc-editor: the image editor component, embedded and verified

    Source: [src/components/image-editor.tsx], the React component
    [ImageEditor].  Every [useState] hook of the component becomes a field of
    a state record, every handler a function on that record, and the JSX
    attributes that decide which handler an event reaches become the
    dispatcher [dispatch].

    The second source file (an earlier revision of the same component, with
    no annotation tools yet) has [handleImageUpload], [handlePaste],
    [handleZoomIn], [handleZoomOut], [handleSave] and [handleCopyToClipboard]
    word for word as here, so what is proved of them holds of both.

    React runs one handler per event against the values of the last render
    and applies all of the handler's [setX] calls before the next event, so a
    handler is a function from the old state to the new one: every read in the
    body is a read of the old state. *)

From Stdlib Require Import ZArith String Bool Lia.
From Stdlib Require Import Floats.PrimFloat Numbers.Cyclic.Int63.Uint63.
From stdpp Require Import base option list.

Local Open Scope string_scope.
Local Open Scope list_scope.

(** ** JavaScript numbers

    A JavaScript [number] is an IEEE 754 binary64 value; [float] is Rocq's
    primitive binary64 type and its operations round as the hardware does.
    The handlers use [+] and [-] on pointer coordinates and nothing else, so
    they are written once over an interface with these two operations and
    the integer literals (and [<], in which the sign of a size is stated),
    and read at two instances: [float], which is the arithmetic the program
    runs, and [Z], exact arithmetic on whole-pixel coordinates, where no
    operation rounds. *)

Class JsNumber (num : Type) : Type := {
  num_add : num → num → num;
  num_sub : num → num → num;
  num_ltb : num → num → bool;
  num_of_Z : Z → num
}.

Declare Scope num_scope.
Delimit Scope num_scope with num.
Infix "+" := num_add : num_scope.
Infix "-" := num_sub : num_scope.
Infix "<?" := num_ltb : num_scope.

(** The laws of exact arithmetic.  [Z] has them; binary64 does not, because
    its sums are rounded. *)
Class ExactArith (num : Type) `{JsNumber num} : Prop := {
  num_add_comm : ∀ a b : num, (a + b = b + a)%num;
  num_add_assoc : ∀ a b c : num, (a + (b + c) = (a + b) + c)%num;
  num_add_0_r : ∀ a : num, (a + num_of_Z 0 = a)%num;
  num_sub_add : ∀ a b : num, ((a - b) + b = a)%num;
  num_add_sub : ∀ a b : num, ((a + b) - b = a)%num;
  num_sub_neg : ∀ a b : num,
    (a <? b)%num = true → (a - b <? num_of_Z 0)%num = true
}.

Definition float_of_Z (z : Z) : float :=
  if (z <? 0)%Z then PrimFloat.opp (PrimFloat.of_uint63 (Uint63.of_Z (- z)))
  else PrimFloat.of_uint63 (Uint63.of_Z z).

#[export] Instance float_JsNumber : JsNumber float := {
  num_add := PrimFloat.add;
  num_sub := PrimFloat.sub;
  num_ltb := PrimFloat.ltb;
  num_of_Z := float_of_Z
}.

#[export] Instance Z_JsNumber : JsNumber Z := {
  num_add := Z.add;
  num_sub := Z.sub;
  num_ltb := Z.ltb;
  num_of_Z := λ z, z
}.

(** ** Exceptions

    A handler that dereferences [null] or [undefined] throws a [TypeError];
    nothing in the component catches it, so the handler's remaining [setX]
    calls never run and the state stays as it was. *)

Inductive Error : Type := TypeError.

Inductive Result (A : Type) : Type :=
  | Ok (a : A)
  | Throw (e : Error).
Arguments Ok {A} a.
Arguments Throw {A} e.

#[export] Instance Result_ret : MRet Result := λ A a, Ok a.

#[export] Instance Result_bind : MBind Result := λ A B k r,
  match r with
  | Ok a => k a
  | Throw e => Throw e
  end.

(** ** Data *)

(** [{ x: number, y: number }], the shape of [cursorPosition], [drawStart]
    and [dragStart]. *)
Module Point.
Record t (num : Type) : Type := mk { x : num; y : num }.
Arguments mk {num} x y.
Arguments x {num} _.
Arguments y {num} _.
End Point.

(** The element type of the [elements] array.  A field declared with [?] is
    absent ([None]) until something writes it.  [type] is declared [string],
    but [handleMouseUp] stores [selectedTool!] in it, and [!] is erased by the
    compiler: at run time the field holds what [selectedTool] holds, [null]
    included, so it is an [option] here. *)
Module Element.
Record t (num : Type) : Type := mk {
  type : option string;
  x : num;
  y : num;
  content : option string;
  width : option num;
  height : option num;
  isEditing : option bool
}.
Arguments mk {num} type x y content width height isEditing.
Arguments type {num} _.
Arguments x {num} _.
Arguments y {num} _.
Arguments content {num} _.
Arguments width {num} _.
Arguments height {num} _.
Arguments isEditing {num} _.

(** [{ ...el, x: x', y: y' }] *)
Definition with_xy {num} (x' y' : num) (el : t num) : t num :=
  mk (type el) x' y' (content el) (width el) (height el) (isEditing el).

(** [el.content = c] *)
Definition with_content {num} (c : string) (el : t num) : t num :=
  mk (type el) (x el) (y el) (Some c) (width el) (height el) (isEditing el).

(** [el.isEditing = b] *)
Definition with_isEditing {num} (b : bool) (el : t num) : t num :=
  mk (type el) (x el) (y el) (content el) (width el) (height el) (Some b).
End Element.

(** What a handler reads from a [MouseEvent]. *)
Record MouseEvent (num : Type) : Type := mkMouseEvent {
  clientX : num;
  clientY : num
}.
Arguments mkMouseEvent {num} clientX clientY.
Arguments clientX {num} _.
Arguments clientY {num} _.

(** What a handler reads from [getBoundingClientRect()]. *)
Module DOMRect.
Record t (num : Type) : Type := mk { left : num; top : num }.
Arguments mk {num} left top.
Arguments left {num} _.
Arguments top {num} _.
End DOMRect.

(** The interaction state: the [useState] hooks the pointer, keyboard and
    tool handlers read or write. *)
Record State (num : Type) : Type := mkState {
  image : option string;
  selectedTool : option string;
  cursorPosition : Point.t num;
  elements : list (Element.t num);
  isDrawing : bool;
  drawStart : Point.t num;
  activeElement : option nat;
  isDragging : bool;
  dragStart : Point.t num
}.
Arguments mkState {num} image selectedTool cursorPosition elements isDrawing
  drawStart activeElement isDragging dragStart.
Arguments image {num} _.
Arguments selectedTool {num} _.
Arguments cursorPosition {num} _.
Arguments elements {num} _.
Arguments isDrawing {num} _.
Arguments drawStart {num} _.
Arguments activeElement {num} _.
Arguments isDragging {num} _.
Arguments dragStart {num} _.

Section Handlers.
Context {num : Type} `{JsNumber num}.

Local Abbreviation state := (State num).

(** The [setX] functions of the hooks. *)
Definition setImage (v : option string) (s : state) : state :=
  mkState v (selectedTool s) (cursorPosition s) (elements s) (isDrawing s)
    (drawStart s) (activeElement s) (isDragging s) (dragStart s).
Definition setSelectedTool (v : option string) (s : state) : state :=
  mkState (image s) v (cursorPosition s) (elements s) (isDrawing s)
    (drawStart s) (activeElement s) (isDragging s) (dragStart s).
Definition setCursorPosition (v : Point.t num) (s : state) : state :=
  mkState (image s) (selectedTool s) v (elements s) (isDrawing s)
    (drawStart s) (activeElement s) (isDragging s) (dragStart s).
Definition setElements (v : list (Element.t num)) (s : state) : state :=
  mkState (image s) (selectedTool s) (cursorPosition s) v (isDrawing s)
    (drawStart s) (activeElement s) (isDragging s) (dragStart s).
Definition setIsDrawing (v : bool) (s : state) : state :=
  mkState (image s) (selectedTool s) (cursorPosition s) (elements s) v
    (drawStart s) (activeElement s) (isDragging s) (dragStart s).
Definition setDrawStart (v : Point.t num) (s : state) : state :=
  mkState (image s) (selectedTool s) (cursorPosition s) (elements s)
    (isDrawing s) v (activeElement s) (isDragging s) (dragStart s).
Definition setActiveElement (v : option nat) (s : state) : state :=
  mkState (image s) (selectedTool s) (cursorPosition s) (elements s)
    (isDrawing s) (drawStart s) v (isDragging s) (dragStart s).
Definition setIsDragging (v : bool) (s : state) : state :=
  mkState (image s) (selectedTool s) (cursorPosition s) (elements s)
    (isDrawing s) (drawStart s) (activeElement s) v (dragStart s).
Definition setDragStart (v : Point.t num) (s : state) : state :=
  mkState (image s) (selectedTool s) (cursorPosition s) (elements s)
    (isDrawing s) (drawStart s) (activeElement s) (isDragging s) v.

(** The state of the first render: the arguments of the [useState] calls. *)
Definition initial : state :=
  mkState None None (Point.mk (num_of_Z 0) (num_of_Z 0)) [] false
    (Point.mk (num_of_Z 0) (num_of_Z 0)) None false
    (Point.mk (num_of_Z 0) (num_of_Z 0)).

(** [a === b] where [a] is a string and [b] is [string | null]. *)
Definition strict_eq (a : string) (b : option string) : bool :=
  match b with
  | Some b => String.eqb a b
  | None => false
  end.

(** JavaScript truthiness of a [string | null]: [null] and the empty string
    are falsy. *)
Definition truthy (v : option string) : bool :=
  match v with
  | None => false
  | Some s => negb (String.eqb s "")
  end.

(** [!ref.current] *)
Definition is_null {A} (current : option A) : bool :=
  match current with
  | Some _ => false
  | None => true
  end.

(** JavaScript truthiness of an optional boolean field: absent ([undefined])
    and [false] are falsy. *)
Definition truthy_bool (v : option bool) : bool :=
  match v with
  | Some b => b
  | None => false
  end.

(** The pointer in the coordinates of the composed image:
    [e.clientX - rect.left], [e.clientY - rect.top]. *)
Definition pointer (rect : DOMRect.t num) (e : MouseEvent num) : Point.t num :=
  Point.mk (clientX e - DOMRect.left rect)%num (clientY e - DOMRect.top rect)%num.

(** [handleToolSelect], lines 135-139. *)
Definition handleToolSelect (tool : string) (s : state) : state :=
  if negb (truthy (image s)) then s
  else
    setActiveElement None
      (setSelectedTool
         (if strict_eq tool (selectedTool s) then None else Some tool) s).

(** [handleMouseMove], lines 141-158.  [current] is [editedImageRef.current]. *)
Definition handleMouseMove (current : option (DOMRect.t num))
    (e : MouseEvent num) (s : state) : state :=
  match current with
  | None => s
  | Some rect =>
    let p := pointer rect e in
    let s1 := setCursorPosition p s in
    match isDragging s, activeElement s with
    | true, Some a =>
      let dx := (Point.x p - Point.x (dragStart s))%num in
      let dy := (Point.y p - Point.y (dragStart s))%num in
      setDragStart p
        (setElements
           (imap (λ i el,
              if Nat.eqb i a
              then Element.with_xy (Element.x el + dx)%num
                     (Element.y el + dy)%num el
              else el) (elements s)) s1)
    | _, _ => s1
    end
  end.

(** [handleMouseDown], lines 160-186. *)
Definition handleMouseDown (current : option (DOMRect.t num))
    (e : MouseEvent num) (s : state) : state :=
  match current with
  | None => s
  | Some rect =>
    let p := pointer rect e in
    if strict_eq "text" (selectedTool s) then
      let newElement :=
        Element.mk (Some "text") (Point.x p) (Point.y p)
          (Some "Text goes here") (Some (num_of_Z 200)) (Some (num_of_Z 40))
          (Some true) in
      setSelectedTool None
        (setActiveElement (Some (length (elements s)))
           (setElements (elements s ++ [newElement]) s))
    else if strict_eq "arrow" (selectedTool s)
            || strict_eq "square" (selectedTool s) then
      setDrawStart p (setIsDrawing true s)
    else
      match activeElement s with
      | Some _ => setDragStart p (setIsDragging true s)
      | None => s
      end
  end.

(** [handleMouseUp], lines 188-210.  The guard returns only while a draw is
    in progress; otherwise [editedImageRef.current!] is dereferenced as it is,
    and [null.getBoundingClientRect()] throws. *)
Definition handleMouseUp (current : option (DOMRect.t num))
    (e : MouseEvent num) (s : state) : Result state :=
  if isDrawing s && is_null current then Ok s
  else
    match current with
    | None => Throw TypeError
    | Some rect =>
      let endP := pointer rect e in
      let s1 :=
        if isDrawing s then
          setSelectedTool None
            (setIsDrawing false
               (setElements
                  (elements s ++
                   [Element.mk (selectedTool s)
                      (Point.x (drawStart s)) (Point.y (drawStart s))
                      None
                      (Some (Point.x endP - Point.x (drawStart s))%num)
                      (Some (Point.y endP - Point.y (drawStart s))%num)
                      None]) s))
        else s in
      Ok (setIsDragging false s1)
    end.

(** [handleElementClick], lines 212-214. *)
Definition handleElementClick (index : nat) (s : state) : state :=
  setActiveElement (Some index) s.

(** [newElements[index].f = v] on the copy [[...elements]].  The copy is
    shallow, so the write lands in the element object that the old array
    shares; the old array is the state of the render being replaced and is
    not read again, so the new state is the list with the element at [index]
    replaced.  When [index] is past the end, [newElements[index]] is
    [undefined] and the assignment throws. *)
Definition assign_at (index : nat) (f : Element.t num → Element.t num)
    (s : state) : Result state :=
  match elements s !! index with
  | None => Throw TypeError
  | Some el => Ok (setElements (<[index := f el]> (elements s)) s)
  end.

(** [handleTextChange], lines 216-220. *)
Definition handleTextChange (index : nat) (newContent : string) (s : state)
    : Result state :=
  assign_at index (Element.with_content newContent) s.

(** [handleTextDoubleClick], lines 222-227. *)
Definition handleTextDoubleClick (index : nat) (s : state) : Result state :=
  s1 ← assign_at index (Element.with_isEditing true) s;
  mret (setActiveElement (Some index) s1).

(** [handleTextBlur], lines 229-233. *)
Definition handleTextBlur (index : nat) (s : state) : Result state :=
  assign_at index (Element.with_isEditing false) s.

(** [handleClickOutside], lines 83-90: [contains] is
    [editedImageRef.current.contains(e.target)]. *)
Definition handleClickOutside (current : option (DOMRect.t num))
    (contains : bool) (s : state) : state :=
  match current with
  | Some _ => if negb contains then setActiveElement None s else s
  | None => s
  end.

(** [handleKeyDown], lines 92-96. *)
Definition handleKeyDown (key : string) (s : state) : state :=
  if String.eqb key "Escape" then setActiveElement None s else s.

(** *** Events

    The events the component listens to, each with what its listener reads.
    [dispatch] is the wiring of the JSX: which handler an event reaches, and
    under which condition the node that listens exists at all. *)

Inductive Event : Type :=
  | MouseMove (current : option (DOMRect.t num)) (e : MouseEvent num)
  | MouseDown (current : option (DOMRect.t num)) (e : MouseEvent num)
  | MouseUp (current : option (DOMRect.t num)) (e : MouseEvent num)
  | ElementClick (index : nat)
  | ElementDoubleClick (index : nat)
  | TextareaChange (index : nat) (value : string)
  | TextareaBlur (index : nat)
  | DocumentMouseDown (current : option (DOMRect.t num)) (contains : bool)
  | DocumentKeyDown (key : string)
  | ToolButtonClick (tool : string)
  | ReaderLoad (result : option string).

(** [element.type === "text" && (element.isEditing ? <textarea/> : ...)]:
    the textarea of an element is rendered only while this holds. *)
Definition has_textarea (el : Element.t num) : bool :=
  strict_eq "text" (Element.type el) && truthy_bool (Element.isEditing el).

Definition dispatch (s : state) (ev : Event) : Result state :=
  match ev with
  | MouseMove current e => Ok (handleMouseMove current e s)
  | MouseDown current e => Ok (handleMouseDown current e s)
  | MouseUp current e => handleMouseUp current e s
  | ElementClick index =>
    (* the div of element [index], [onClick] *)
    match elements s !! index with
    | Some _ => Ok (handleElementClick index s)
    | None => Ok s
    end
  | ElementDoubleClick index =>
    (* [element.type === "text" && handleTextDoubleClick(index)] *)
    match elements s !! index with
    | Some el =>
      if strict_eq "text" (Element.type el)
      then handleTextDoubleClick index s else Ok s
    | None => Ok s
    end
  | TextareaChange index value =>
    match elements s !! index with
    | Some el =>
      if has_textarea el then handleTextChange index value s else Ok s
    | None => Ok s
    end
  | TextareaBlur index =>
    match elements s !! index with
    | Some el => if has_textarea el then handleTextBlur index s else Ok s
    | None => Ok s
    end
  | DocumentMouseDown current contains =>
    Ok (handleClickOutside current contains s)
  | DocumentKeyDown key => Ok (handleKeyDown key s)
  | ToolButtonClick tool =>
    (* [disabled={!image}]: a disabled button fires no click *)
    if truthy (image s) then Ok (handleToolSelect tool s) else Ok s
  | ReaderLoad result =>
    (* [reader.onload = (e) => setImage(e.target?.result as string)] *)
    Ok (setImage result s)
  end.

(** A sequence of events, one after the other; an exception ends it. *)
Fixpoint run (s : state) (evs : list Event) : Result state :=
  match evs with
  | [] => Ok s
  | ev :: evs => s1 ← dispatch s ev; run s1 evs
  end.

(** An element is being edited when its [isEditing] is [true]. *)
Definition editing (el : Element.t num) : bool :=
  truthy_bool (Element.isEditing el).

Definition count_editing (s : state) : nat :=
  length (List.filter editing (elements s)).

(** The events that put an element into edit mode: a pointer-down that
    creates a text element, and a double click on a text element that is not
    being edited. *)
Definition enters_edit (s : state) (ev : Event) : bool :=
  match ev with
  | MouseDown (Some _) _ => strict_eq "text" (selectedTool s)
  | ElementDoubleClick index =>
    match elements s !! index with
    | Some el => strict_eq "text" (Element.type el) && negb (editing el)
    | None => false
    end
  | _ => false
  end.

(** A sequence of events in which an element is put into edit mode only
    when no element is being edited. *)
Fixpoint one_editor_at_a_time (s : state) (evs : list Event) : bool :=
  match evs with
  | [] => true
  | ev :: evs =>
    implb (enters_edit s ev) (Nat.eqb (count_editing s) 0)
    && match dispatch s ev with
       | Ok s1 => one_editor_at_a_time s1 evs
       | Throw _ => true
       end
  end.

(** *** Drag gestures

    The pointer-move events of one gesture, each with the rectangle that
    [getBoundingClientRect()] returns when it fires. *)
Definition moves_after (s : state)
    (moves : list (DOMRect.t num * MouseEvent num)) : state :=
  foldl (λ s m, handleMouseMove (Some m.1) m.2 s) s moves.

(** The pointer position at each move. *)
Definition samples (moves : list (DOMRect.t num * MouseEvent num))
    : list (Point.t num) :=
  (λ m, pointer m.1 m.2) <$> moves.

(** The delta of each sample since the sample before it; [start] comes
    before the first. *)
Fixpoint deltas (start : Point.t num) (pts : list (Point.t num))
    : list (Point.t num) :=
  match pts with
  | [] => []
  | p :: pts =>
    Point.mk (Point.x p - Point.x start)%num (Point.y p - Point.y start)%num
    :: deltas p pts
  end.

(** [{ ...el, x: el.x + dx, y: el.y + dy }] *)
Definition translate (el : Element.t num) (d : Point.t num) : Element.t num :=
  Element.with_xy (Element.x el + Point.x d)%num
    (Element.y el + Point.y d)%num el.

(** The vector sum of a list of deltas. *)
Definition vsum (ds : list (Point.t num)) : Point.t num :=
  foldr (λ d acc, Point.mk (Point.x d + Point.x acc)%num
                    (Point.y d + Point.y acc)%num)
    (Point.mk (num_of_Z 0) (num_of_Z 0)) ds.

End Handlers.

Arguments Event num : clear implicits.

(** ** Presentation state and zoom

    The hooks the sliders, swatches and zoom buttons write.  These are
    binary64 values throughout: the zoom step [0.1] has no exact binary
    representation, so what the zoom buttons compute is decided by rounding. *)

(* A decimal literal denotes the nearest binary64 value, in JavaScript as
   here. *)
Set Warnings "-inexact-float".

Record Presentation : Type := mkPresentation {
  padding : float;
  inset : float;
  rounded : float;
  shadow : float;
  background : string;
  ratio : string;
  zoom : float
}.

Definition initial_presentation : Presentation :=
  mkPresentation 39 0 16 27 "#e0e0e0" "auto" 1.

(** [Math.min] and [Math.max] on two arguments: [NaN] if either is [NaN];
    [-0] is below [+0]. *)
Definition Math_min (a b : float) : float :=
  if is_nan a || is_nan b then nan
  else if (a <? b)%float then a
  else if (b <? a)%float then b
  else if get_sign a then a else b.

Definition Math_max (a b : float) : float :=
  if is_nan a || is_nan b then nan
  else if (a <? b)%float then b
  else if (b <? a)%float then a
  else if get_sign a then b else a.

(** [handleZoomIn] and [handleZoomOut], lines 115-116: the updater functions
    passed to [setZoom]. *)
Definition handleZoomIn (prev : float) : float :=
  Math_min (prev + 0.1)%float 3%float.

Definition handleZoomOut (prev : float) : float :=
  Math_max (prev - 0.1)%float 0.1%float.

Definition setZoom (f : float → float) (p : Presentation) : Presentation :=
  mkPresentation (padding p) (inset p) (rounded p) (shadow p) (background p)
    (ratio p) (f (zoom p)).

Inductive ZoomAction : Type := ZoomIn | ZoomOut.

Definition zoom_step (z : float) (a : ZoomAction) : float :=
  match a with
  | ZoomIn => handleZoomIn z
  | ZoomOut => handleZoomOut z
  end.

(** The zoom factor after a sequence of clicks on the two zoom buttons. *)
Definition zoom_after (z : float) (acts : list ZoomAction) : float :=
  foldl zoom_step z acts.

(** [min <= z <= max], as a test that evaluates. *)
Definition in_range (min max z : float) : bool :=
  (min <=? z)%float && (z <=? max)%float.

(** The zoom factors the two buttons can produce from the initial factor
    [1]: the closure of [[1]] under both updaters, computed by adding the
    image of the list to the list until nothing new appears. *)
Definition float_mem (z : float) (l : list float) : bool :=
  existsb (PrimFloat.Leibniz.eqb z) l.

Definition add_new (l : list float) (z : float) : list float :=
  if float_mem z l then l else l ++ [z].

Definition expand (l : list float) : list float :=
  foldl (λ acc z, add_new (add_new acc (handleZoomIn z)) (handleZoomOut z)) l l.

Fixpoint closure (fuel : nat) (l : list float) : list float :=
  match fuel with
  | O => l
  | S fuel => closure fuel (expand l)
  end.

Definition zoom_levels : list float :=
  Eval vm_compute in closure 64 [1%float].

(** ** The composed subtree

    The [div] that carries [ref={editedImageRef}], lines 275-409: its inline
    style, and its children in order. *)

Inductive Transform : Type := scale (factor : float).

Record Style : Type := mkStyle {
  style_padding : float;          (* [`${padding}px`] *)
  style_backgroundColor : string;
  style_transform : Transform;    (* [`scale(${zoom})`] *)
  style_cursor : string
}.

(** The first child: the image, or the upload placeholder. *)
Inductive Picture : Type :=
  | Img (src : string) (borderRadius : float) (boxShadow : float)
  | UploadPlaceholder.

(** What is drawn inside the box of an element. *)
Inductive ElementBody : Type :=
  | Textarea (value : option string)
  | TextDiv (content : option string)
  | ArrowSvg (width height : option float)
  | SquareDiv
  | NoBody.

Record ElementBox : Type := mkElementBox {
  box_left : float;
  box_top : float;
  box_width : option float;
  box_height : option float;
  box_cursor : string;
  box_border : string;
  box_body : ElementBody
}.

Record Composed : Type := mkComposed {
  style : Style;
  picture : Picture;
  boxes : list ElementBox;
  textPreview : option (Point.t float)
}.

Definition render_element (active : option nat) (index : nat)
    (element : Element.t float) : ElementBox :=
  mkElementBox (Element.x element) (Element.y element)
    (Element.width element) (Element.height element)
    (if strict_eq "text" (Element.type element) then "grab" else "default")
    (if bool_decide (active = Some index)
        && negb (truthy_bool (Element.isEditing element))
     then "2px dashed blue" else "none")
    (if strict_eq "text" (Element.type element) then
       if truthy_bool (Element.isEditing element)
       then Textarea (Element.content element)
       else TextDiv (Element.content element)
     else if strict_eq "arrow" (Element.type element) then
       ArrowSvg (Element.width element) (Element.height element)
     else if strict_eq "square" (Element.type element) then SquareDiv
     else NoBody).

Definition render (p : Presentation) (s : State float) : Composed :=
  mkComposed
    (mkStyle (padding p) (background p) (scale (zoom p))
       (if strict_eq "text" (selectedTool s) then "text"
        else if truthy (selectedTool s) then "crosshair" else "default"))
    (match image s with
     | Some src => if truthy (image s) then Img src (rounded p) (shadow p)
                   else UploadPlaceholder
     | None => UploadPlaceholder
     end)
    (imap (render_element (activeElement s)) (elements s))
    (if strict_eq "text" (selectedTool s) then Some (cursorPosition s)
     else None).

(** ** Export

    [toPng] and [toBlob] come from the package [html-to-image], which is not
    part of the repository: they are parameters.  Each takes the node and
    returns a promise, which resolves to a value or rejects; the handlers
    [await] it and catch nothing.  What a handler does to the outside is its
    trace: the calls it makes, in order. *)

Record Blob : Type := mkBlob { blob_type : string; blob_data : string }.

Inductive Effect : Type :=
  | CallToPng (node : Composed)
  | CallToBlob (node : Composed)
  | DownloadLink (download href : string)
  | ClipboardWrite (mime : string) (blob : Blob).

Section ExportHandlers.
Variable toPng : Composed → Result string.
Variable toBlob : Composed → Result (option Blob).

(** The trace of a handler and how it ended: [Ok tt] when it ran to its end
    or returned, [Throw e] when the awaited promise rejected. *)
Definition Outcome : Type := list Effect * Result unit.

(** [handleSave], lines 118-125. *)
Definition handleSave (current : option Composed) : Outcome :=
  match current with
  | None => ([], Ok tt)
  | Some node =>
    match toPng node with
    | Throw e => ([CallToPng node], Throw e)
    | Ok dataUrl =>
      ([CallToPng node; DownloadLink "edited-image.png" dataUrl], Ok tt)
    end
  end.

(** [handleCopyToClipboard], lines 127-133. *)
Definition handleCopyToClipboard (current : option Composed) : Outcome :=
  match current with
  | None => ([], Ok tt)
  | Some node =>
    match toBlob node with
    | Throw e => ([CallToBlob node], Throw e)
    | Ok None => ([CallToBlob node], Ok tt)
    | Ok (Some blob) =>
      ([CallToBlob node; ClipboardWrite "image/png" blob], Ok tt)
    end
  end.

End ExportHandlers.

(** ** Paste *)

(** What [handlePaste] reads from a [DataTransferItem]. *)
Module DataTransferItem.
Record t : Type := mk { type : string; getAsFile : option Blob }.
End DataTransferItem.

(** [s.indexOf(pat)]: the index of the first occurrence, or [-1]. *)
Definition indexOf (s pat : string) : Z :=
  match String.index 0 pat s with
  | Some n => Z.of_nat n
  | None => (-1)%Z
  end.

(** [items[i].type.indexOf("image") !== -1] *)
Definition is_image (item : DataTransferItem.t) : bool :=
  negb (indexOf (DataTransferItem.type item) "image" =? -1)%Z.

(** The loop of [handlePaste], lines 66-73, from item [i] on: the blobs for
    which a [FileReader] was created and [readAsDataURL] called, in order,
    and how the loop ended.  [readAsDataURL(null)] throws, which leaves the
    loop; the reads started before go on. *)
Fixpoint paste_loop (items : list DataTransferItem.t)
    : list Blob * Result unit :=
  match items with
  | [] => ([], Ok tt)
  | item :: items =>
    if is_image item then
      match DataTransferItem.getAsFile item with
      | None => ([], Throw TypeError)
      | Some blob =>
        let '(reads, r) := paste_loop items in (blob :: reads, r)
      end
    else paste_loop items
  end.

(** [handlePaste], lines 63-75; [items] is [e.clipboardData?.items]. *)
Definition handlePaste (items : option (list DataTransferItem.t))
    : list Blob * Result unit :=
  match items with
  | Some items => paste_loop items
  | None => ([], Ok tt)
  end.

(** [handleImageUpload], lines 54-61: one read, of [e.target.files?.[0]],
    when there is such a file. *)
Definition handleImageUpload (files : option (list Blob)) : list Blob :=
  match files with
  | Some (file :: _) => [file]
  | _ => []
  end.

(** The first item of the list whose type contains ["image"]. *)
Definition first_image (items : list DataTransferItem.t)
    : option DataTransferItem.t :=
  head (filter (λ item, is_image item = true) items).

Section Reader.
(** The data URL a [FileReader] produces for a blob. *)
Variable dataURL : Blob → string.

(** Every read that was started ends with [reader.onload], which calls
    [setImage]: the events a paste leaves behind, in the order the reads
    complete. *)
Definition load_events {num} (completed : list Blob) : list (Event num) :=
  (λ blob, ReaderLoad (Some (dataURL blob))) <$> completed.

End Reader.

(** [node] with another transform and everything else as it is. *)
Definition with_transform (t : Transform) (node : Composed) : Composed :=
  mkComposed
    (mkStyle (style_padding (style node)) (style_backgroundColor (style node))
       t (style_cursor (style node)))
    (picture node) (boxes node) (textPreview node).

(** ** Concrete inputs

    States, events and clipboard contents at which the theorems below are
    evaluated. *)

Definition png_url : string := "data:image/png;base64,iVBORw0KGgo=".

(** At whole-pixel coordinates. *)
Definition origin_Z : DOMRect.t Z := DOMRect.mk 0%Z 0%Z.
Definition loaded_Z : State Z := setImage (Some png_url) initial.
Definition text_ready_Z : State Z := setSelectedTool (Some "text") loaded_Z.
Definition square_ready_Z : State Z := setSelectedTool (Some "square") loaded_Z.

Definition label_Z : Element.t Z :=
  Element.mk (Some "text") 50%Z 60%Z (Some "Text goes here") (Some 200%Z)
    (Some 40%Z) (Some false).

(** One label, selected, with the button down on it at [(55, 65)]. *)
Definition dragging_Z : State Z :=
  mkState (Some png_url) None (Point.mk 55 65)%Z [label_Z] false
    (Point.mk 0 0)%Z (Some 0) true (Point.mk 55 65)%Z.

Definition session_Z : list (Event Z) :=
  [ ReaderLoad (Some png_url);
    ToolButtonClick "text";
    MouseDown (Some origin_Z) (mkMouseEvent 50 60)%Z;
    MouseUp (Some origin_Z) (mkMouseEvent 50 60)%Z;
    TextareaChange 0 "first";
    TextareaBlur 0;
    ToolButtonClick "text";
    MouseDown (Some origin_Z) (mkMouseEvent 80 90)%Z;
    MouseUp (Some origin_Z) (mkMouseEvent 80 90)%Z ].

(** In binary64, with the composed image 0.3 pixels from the left edge of
    the viewport. *)
Definition offset_rect : DOMRect.t float := DOMRect.mk 0.3%float 0%float.
Definition loaded : State float := setImage (Some png_url) initial.
Definition text_ready : State float := setSelectedTool (Some "text") loaded.

Definition label : Element.t float :=
  Element.mk (Some "text") 0.7%float 0%float (Some "Text goes here")
    (Some 200%float) (Some 40%float) (Some true).

(** The events that create [label] with a click at [clientX = 1] and press
    the button on it again at the same place. *)
Definition press_on_label : list (Event float) :=
  [ ReaderLoad (Some png_url);
    ToolButtonClick "text";
    MouseDown (Some offset_rect) (mkMouseEvent 1 0)%float;
    MouseUp (Some offset_rect) (mkMouseEvent 1 0)%float;
    MouseDown (Some offset_rect) (mkMouseEvent 1 0)%float ].

Definition dragging : State float :=
  mkState (Some png_url) None (Point.mk 0 0)%float [label] false
    (Point.mk 0 0)%float (Some 0) true (Point.mk 0.7 0)%float.

(** To [clientX = 3] and back to [clientX = 1], and staying at
    [clientX = 1]. *)
Definition there_and_back : list (DOMRect.t float * MouseEvent float) :=
  [ (offset_rect, mkMouseEvent 3 0)%float;
    (offset_rect, mkMouseEvent 1 0)%float ].
Definition stay : list (DOMRect.t float * MouseEvent float) :=
  [ (offset_rect, mkMouseEvent 1 0)%float ].

(** Two text elements placed one after the other. *)
Definition two_labels : list (Event float) :=
  [ ReaderLoad (Some png_url);
    ToolButtonClick "text";
    MouseDown (Some offset_rect) (mkMouseEvent 10 10)%float;
    MouseUp (Some offset_rect) (mkMouseEvent 10 10)%float;
    ToolButtonClick "text";
    MouseDown (Some offset_rect) (mkMouseEvent 50 50)%float ].

(** A rasterizer that reports the transform it is given. *)
Definition transform_probe (node : Composed) : Result string :=
  match style_transform (style node) with
  | scale z => Ok (if (z =? 1)%float then "unscaled" else "scaled")
  end.

Definition png_blob : Blob := mkBlob "image/png" "iVBORw0KGgo=".
Definition jpeg_blob : Blob := mkBlob "image/jpeg" "/9j/4AAQSkZJRg==".
Definition png_item : DataTransferItem.t :=
  DataTransferItem.mk "image/png" (Some png_blob).
Definition jpeg_item : DataTransferItem.t :=
  DataTransferItem.mk "image/jpeg" (Some jpeg_blob).
Definition html_item : DataTransferItem.t :=
  DataTransferItem.mk "text/html" None.

Definition base64_url (blob : Blob) : string :=
  String.append "data:"
    (String.append (blob_type blob)
       (String.append ";base64," (blob_data blob))).

(** ** What the handlers keep

    Predicates on states and elements in which the behaviour of the handlers
    over whole sessions is stated. *)

Section Keeps.
Context {num : Type} `{JsNumber num}.

(** Two elements with the same type and size: what no handler writes after
    the element is created. *)
Definition same_shape (el el' : Element.t num) : Prop :=
  Element.type el' = Element.type el
  ∧ Element.width el' = Element.width el
  ∧ Element.height el' = Element.height el.

(** [activeElement] is [null] or an index into [elements]. *)
Definition active_in_range (s : State num) : bool :=
  match activeElement s with
  | Some a => Nat.ltb a (length (elements s))
  | None => true
  end.

(** The events that can append an element: a pointer-down and a
    pointer-up. *)
Definition may_append (ev : Event num) : bool :=
  match ev with
  | MouseDown _ _ | MouseUp _ _ => true
  | _ => false
  end.


(** [s'] is [s] but for the cursor position. *)
Definition same_but_cursor (s s' : State num) : Prop :=
  setCursorPosition (cursorPosition s) s' = s.

(** A pointer-move finds nothing to drag. *)
Definition idle (s : State num) : bool :=
  negb (isDragging s) || is_null (activeElement s).

(** The pointer-move events of a gesture as events of the component. *)
Definition move_events (moves : list (DOMRect.t num * MouseEvent num))
    : list (Event num) :=
  (λ m, MouseMove (Some m.1) m.2) <$> moves.


(** The tool is one that a pointer-down acts on. *)
Definition tool_in_use (s : State num) : bool :=
  strict_eq "text" (selectedTool s)
  || strict_eq "arrow" (selectedTool s)
  || strict_eq "square" (selectedTool s).

End Keeps.

(** ** Readings of zoom factors, renderings and traces *)

(** The zoom factors the buttons would give in exact arithmetic: the tenths
    from 0.1 to 3.0, each the binary64 value nearest to it. *)
Definition tenths : list float :=
  (λ k, (float_of_Z (Z.of_nat k) / 10)%float) <$> seq 1 30.

(** [z] is within [2e-15] of a tenth. *)
Definition near_tenth (z : float) : bool :=
  existsb (λ t, (abs (z - t) <=? 2e-15)%float) tenths.

(** The box is drawn with the selection border. *)
Definition dashed (b : ElementBox) : bool :=
  String.eqb (box_border b) "2px dashed blue".

(** The downloads and the clipboard writes of a trace, and the nodes handed
    to the rasterizer. *)
Definition downloads (trace : list Effect) : list (string * string) :=
  omap (λ eff, match eff with
               | DownloadLink download href => Some (download, href)
               | _ => None
               end) trace.

Definition clipboard_writes (trace : list Effect) : list (string * Blob) :=
  omap (λ eff, match eff with
               | ClipboardWrite mime blob => Some (mime, blob)
               | _ => None
               end) trace.

Definition rasterized (trace : list Effect) : list Composed :=
  omap (λ eff, match eff with
               | CallToPng node | CallToBlob node => Some node
               | _ => None
               end) trace.

(** The longest prefix of [l] whose members pass the test. *)
Fixpoint take_while {A} (f : A → bool) (l : list A) : list A :=
  match l with
  | [] => []
  | x :: l => if f x then x :: take_while f l else []
  end.

(** [getAsFile()] returns a file. *)
Definition has_file (item : DataTransferItem.t) : bool :=
  match DataTransferItem.getAsFile item with
  | Some _ => true
  | None => false
  end.

(** One label, selected, no button down. *)
Definition selected_Z : State Z :=
  mkState (Some png_url) None (Point.mk 55 65)%Z [label_Z] false
    (Point.mk 0 0)%Z (Some 0) false (Point.mk 0 0)%Z.

(** From [dragging_Z]: the drag goes on and ends, the label is edited, and
    an arrow is drawn. *)
Definition later_session_Z : list (Event Z) :=
  [ MouseMove (Some origin_Z) (mkMouseEvent 60 70)%Z;
    MouseUp (Some origin_Z) (mkMouseEvent 60 70)%Z;
    ElementDoubleClick 0;
    TextareaChange 0 "Hello";
    TextareaBlur 0;
    DocumentKeyDown "Escape";
    ToolButtonClick "arrow";
    MouseDown (Some origin_Z) (mkMouseEvent 10 10)%Z;
    MouseUp (Some origin_Z) (mkMouseEvent 30 5)%Z;
    ElementClick 1 ].

Definition wander_Z : list (DOMRect.t Z * MouseEvent Z) :=
  [ (origin_Z, mkMouseEvent 70 40)%Z; (origin_Z, mkMouseEvent 155 95)%Z ].

(** A label in edit mode. *)
Definition editing_label : State float :=
  mkState (Some png_url) None (Point.mk 0 0)%float [label] false
    (Point.mk 0 0)%float (Some 0) false (Point.mk 0 0)%float.

Definition arrow_ready : State float :=
  setSelectedTool (Some "arrow") loaded.

(** * Theorems *)

(** ** Zoom *)

Ltac find_in_list :=
  first [ left; reflexivity | right; find_in_list ].

(** [zoom_levels] is closed under both buttons. *)
Lemma zoom_levels_closed :
  Forall (λ z, In (handleZoomIn z) zoom_levels
               ∧ In (handleZoomOut z) zoom_levels) zoom_levels.
Proof.
  unfold zoom_levels.
  repeat (apply List.Forall_cons; [split; vm_compute; find_in_list|]).
  apply List.Forall_nil.
Qed.

Lemma zoom_levels_step (z : float) (a : ZoomAction) :
  In z zoom_levels → In (zoom_step z a) zoom_levels.
Proof.
  intros Hz.
  pose proof (proj1 (List.Forall_forall _ _) zoom_levels_closed z Hz) as [Hin Hout].
  by destruct a.
Qed.

(** Every factor reached from [1] is one of [zoom_levels]. *)
Lemma zoom_after_levels (acts : list ZoomAction) : ∀ z,
  In z zoom_levels → In (zoom_after z acts) zoom_levels.
Proof.
  induction acts as [|a acts IH]; intros z Hz; [done|].
  apply IH, zoom_levels_step, Hz.
Qed.

Lemma zoom_levels_in_range :
  ∀ z, In z zoom_levels →
       in_range 0.1 3 z = true ∧ (0 <? z)%float = true.
Proof.
  assert (Hall : forallb (λ z, in_range 0.1 3 z && (0 <? z)%float)
                   zoom_levels = true) by (vm_compute; reflexivity).
  intros z Hz.
  apply andb_prop. revert z Hz. by apply List.forallb_forall.
Qed.

(** C5 (as amended).  From zoom 1, after any sequence of zoom-in and zoom-out
    actions the zoom factor is within [0.1, 3.0], so never 0 or negative.
    Six zoom-ins from 1 yield 1.6000000000000005, which is 1.6 up to the
    rounding of the six additions; 20 zoom-ins saturate at 3; 25 zoom-outs
    from 3 leave 0.49999999999999845, 28 leave 0.19999999999999848, and the
    29th saturates at 0.1. *)
Theorem zoom_bounds :
  (∀ acts : list ZoomAction,
     in_range 0.1 3 (zoom_after 1 acts) = true
     ∧ (0 <? zoom_after 1 acts)%float = true) ∧
  zoom_after 1 (replicate 6 ZoomIn) = 1.6000000000000005%float ∧
  (abs (zoom_after 1 (replicate 6 ZoomIn) - 1.6) <? 1e-15)%float = true ∧
  zoom_after 1 (replicate 20 ZoomIn) = 3%float ∧
  zoom_after 3 (replicate 25 ZoomOut) = 0.49999999999999845%float ∧
  zoom_after 3 (replicate 28 ZoomOut) = 0.19999999999999848%float ∧
  zoom_after 3 (replicate 29 ZoomOut) = 0.1%float.
Proof.
  split; [|repeat split; vm_compute; reflexivity].
  intros acts. apply zoom_levels_in_range, zoom_after_levels.
  unfold zoom_levels. by left.
Qed.

(** 25 zoom-outs from 3 do not reach the lower clamp, and six zoom-ins from
    1 do not give the binary64 value of 1.6. *)
Lemma zoom_25_outs_not_saturated :
  (zoom_after 3 (replicate 25 ZoomOut) =? 0.1)%float = false ∧
  (zoom_after 1 (replicate 6 ZoomIn) =? 1.6)%float = false.
Proof. split; vm_compute; reflexivity. Qed.

(** Whole-pixel arithmetic is exact. *)
#[export] Instance Z_ExactArith : ExactArith Z.
Proof. split; cbn; intros; lia. Qed.

Section HandlerFacts.
Context {num : Type} `{JsNumber num}.
Implicit Types (s : State num) (e : MouseEvent num) (rect : DOMRect.t num).

(** ** Tool selection *)

Lemma strict_eq_Some_refl (tool : string) : strict_eq tool (Some tool) = true.
Proof. apply String.eqb_refl. Qed.

Lemma strict_eq_true (a : string) (b : option string) :
  strict_eq a b = true ↔ b = Some a.
Proof.
  destruct b as [b|]; cbn; [|split; [discriminate | discriminate]].
  rewrite String.eqb_eq. split; [intros ->; reflexivity | congruence].
Qed.

Lemma handleToolSelect_no_image tool s :
  truthy (image s) = false → handleToolSelect tool s = s.
Proof. intros Himg. unfold handleToolSelect. rewrite Himg. reflexivity. Qed.

Lemma handleToolSelect_loaded tool s :
  truthy (image s) = true →
  handleToolSelect tool s =
  setActiveElement None
    (setSelectedTool
       (if strict_eq tool (selectedTool s) then None else Some tool) s).
Proof. intros Himg. unfold handleToolSelect. rewrite Himg. reflexivity. Qed.

(** C4 (as amended).  Selecting a tool while no image is loaded changes
    nothing.  With an image loaded: selecting the tool that is active sets the
    tool to none; selecting a tool that is not active makes it the tool, and
    selecting it once more sets the tool to none; selecting the active tool
    twice therefore ends with it active again; and every selection clears the
    active element. *)
Theorem tool_select_toggle (tool : string) (s : State num) :
  (truthy (image s) = false → handleToolSelect tool s = s) ∧
  (truthy (image s) = true →
     (selectedTool s = Some tool →
        selectedTool (handleToolSelect tool s) = None) ∧
     (selectedTool s ≠ Some tool →
        selectedTool (handleToolSelect tool s) = Some tool ∧
        selectedTool (handleToolSelect tool (handleToolSelect tool s)) = None) ∧
     (selectedTool s = Some tool →
        selectedTool (handleToolSelect tool (handleToolSelect tool s))
        = Some tool) ∧
     activeElement (handleToolSelect tool s) = None).
Proof.
  split; [apply handleToolSelect_no_image|].
  intros Himg.
  assert (Himg' : ∀ v a, truthy (image (setActiveElement a
                            (setSelectedTool v s))) = true) by (intros; exact Himg).
  rewrite !(handleToolSelect_loaded tool s Himg).
  rewrite !handleToolSelect_loaded by apply Himg'. cbn.
  repeat split.
  - intros ->. by rewrite strict_eq_Some_refl.
  - destruct (strict_eq tool (selectedTool s)) eqn:E; [|done].
    apply strict_eq_true in E. congruence.
  - destruct (strict_eq tool (selectedTool s)) eqn:E.
    + apply strict_eq_true in E. congruence.
    + by rewrite strict_eq_Some_refl.
  - intros ->. rewrite strict_eq_Some_refl. cbn. done.
Qed.

(** ** Pointer-down *)

(** C2.  With the text tool active, a pointer-down at [(x, y)] appends one
    text element at [(x, y)], 200 by 40, with the placeholder content and
    [isEditing = true], to the end of the list; the active element becomes
    the index of the new element, which is the previous length, and the tool
    is none. *)
Theorem text_creation s rect e :
  selectedTool s = Some "text" →
  let p := pointer rect e in
  let newElement :=
    Element.mk (Some "text") (Point.x p) (Point.y p) (Some "Text goes here")
      (Some (num_of_Z 200)) (Some (num_of_Z 40)) (Some true) in
  let s' := handleMouseDown (Some rect) e s in
  elements s' = elements s ++ [newElement] ∧
  length (elements s') = S (length (elements s)) ∧
  activeElement s' = Some (length (elements s)) ∧
  elements s' !! length (elements s) = Some newElement ∧
  selectedTool s' = None.
Proof.
  intros Htool. cbn zeta. unfold handleMouseDown. rewrite Htool. cbn.
  repeat split.
  - rewrite length_app. cbn. lia.
  - rewrite lookup_app_r by lia. by rewrite Nat.sub_diag.
Qed.

(** A pointer-down with a shape tool records the anchor and nothing else. *)
Lemma handleMouseDown_shape s rect e tool :
  selectedTool s = Some tool → tool = "arrow" ∨ tool = "square" →
  handleMouseDown (Some rect) e s
  = setDrawStart (pointer rect e) (setIsDrawing true s).
Proof.
  intros Htool Hshape. unfold handleMouseDown. rewrite Htool.
  by destruct Hshape as [-> | ->].
Qed.

(** ** Pointer-up *)

(** C1.  With the arrow or the rectangle tool ("square" in the code) active,
    a pointer-down at the anchor followed by a pointer-up at the release
    point appends exactly one element: its type is the selected tool, its
    position the anchor, its size the release point minus the anchor, as
    subtracted, with no normalisation; afterwards the tool is none and the
    drawing flag is cleared.  Where arithmetic is exact, a release point left
    of (above) the anchor gives a negative width (height). *)
Theorem draw_gesture s (tool : string) (rect_d rect_u : DOMRect.t num)
    (down up : MouseEvent num) :
  selectedTool s = Some tool → tool = "arrow" ∨ tool = "square" →
  let anchor := pointer rect_d down in
  let release := pointer rect_u up in
  let w := (Point.x release - Point.x anchor)%num in
  let h := (Point.y release - Point.y anchor)%num in
  ∃ s',
    handleMouseUp (Some rect_u) up (handleMouseDown (Some rect_d) down s)
    = Ok s' ∧
    elements s' =
      elements s ++
      [Element.mk (Some tool) (Point.x anchor) (Point.y anchor) None
         (Some w) (Some h) None] ∧
    length (elements s') = S (length (elements s)) ∧
    selectedTool s' = None ∧
    isDrawing s' = false ∧
    (ExactArith num →
       ((Point.x release <? Point.x anchor)%num = true →
          (w <? num_of_Z 0)%num = true) ∧
       ((Point.y release <? Point.y anchor)%num = true →
          (h <? num_of_Z 0)%num = true)).
Proof.
  intros Htool Hshape. cbn zeta.
  rewrite (handleMouseDown_shape s rect_d down tool Htool Hshape).
  unfold handleMouseUp. cbn. rewrite Htool.
  eexists. split; [reflexivity|]. cbn.
  repeat split.
  - rewrite length_app. cbn. lia.
  - by apply num_sub_neg.
  - by apply num_sub_neg.
Qed.

(** C10.  The guard of the pointer-up handler returns only while a draw is
    in progress.  With no draw in progress and the reference absent, the
    handler dereferences the absent reference and throws, so it is not total
    there; with a draw in progress and the reference absent it returns and
    the state is as it was. *)
Theorem handleMouseUp_guard :
  (∀ s e, isDrawing s = false → handleMouseUp None e s = Throw TypeError) ∧
  (∀ s e, isDrawing s = true → handleMouseUp None e s = Ok s) ∧
  (∃ s e, isDrawing s = false ∧ handleMouseUp None e s = Throw TypeError).
Proof.
  split; [|split].
  - intros s e Hd. unfold handleMouseUp. by rewrite Hd.
  - intros s e Hd. unfold handleMouseUp. by rewrite Hd.
  - exists initial, (mkMouseEvent (num_of_Z 0) (num_of_Z 0)). done.
Qed.

(** ** Pointer-move *)

(** One move while dragging: the active element, and no other, moves by the
    pointer's delta since the last sample, and the pointer becomes the last
    sample. *)
Lemma handleMouseMove_drag s rect e (a : nat) :
  isDragging s = true → activeElement s = Some a →
  let d := Point.mk (Point.x (pointer rect e) - Point.x (dragStart s))%num
             (Point.y (pointer rect e) - Point.y (dragStart s))%num in
  let s' := handleMouseMove (Some rect) e s in
  isDragging s' = true ∧ activeElement s' = Some a ∧
  dragStart s' = pointer rect e ∧
  (∀ i, elements s' !! i
        = (if Nat.eqb i a then (λ el, translate el d) else id)
            <$> elements s !! i).
Proof.
  intros Hdrag Hact. cbn zeta. unfold handleMouseMove.
  rewrite Hdrag, Hact. cbn. repeat split; [done..|].
  intros i. rewrite list_lookup_imap.
  destruct (elements s !! i) as [el|]; [cbn|done].
  by destruct (Nat.eqb i a).
Qed.

Lemma moves_after_cons s m moves :
  moves_after s (m :: moves)
  = moves_after (handleMouseMove (Some m.1) m.2 s) moves.
Proof. reflexivity. Qed.

(** A whole gesture: the active element moves by the deltas, added one at a
    time in the order of the moves; the other elements stay. *)
Lemma moves_after_drag moves : ∀ s (a : nat) (el : Element.t num),
  isDragging s = true → activeElement s = Some a →
  elements s !! a = Some el →
  elements (moves_after s moves) !! a
  = Some (foldl translate el (deltas (dragStart s) (samples moves))) ∧
  (∀ i, i ≠ a → elements (moves_after s moves) !! i = elements s !! i).
Proof.
  induction moves as [|[rect e] moves IH]; intros s a el Hdrag Hact Hel.
  - done.
  - rewrite moves_after_cons. cbn [fst snd].
    destruct (handleMouseMove_drag s rect e a Hdrag Hact)
      as (Hdrag' & Hact' & Hstart' & Hels').
    destruct (IH _ a (translate el
                (Point.mk (Point.x (pointer rect e) - Point.x (dragStart s))%num
                   (Point.y (pointer rect e) - Point.y (dragStart s))%num))
                Hdrag' Hact') as [IHa IHo].
    { rewrite Hels', Hel, Nat.eqb_refl. done. }
    split.
    + rewrite IHa, Hstart'. reflexivity.
    + intros i Hi. rewrite (IHo i Hi), Hels'.
      apply Nat.eqb_neq in Hi. rewrite Hi.
      by destruct (elements s !! i).
Qed.

Lemma last_cons_default {A} (l : list A) : ∀ a d : A,
  List.last (a :: l) d = List.last l a.
Proof.
  induction l as [|b l IH]; intros a d; [done|].
  change (List.last (a :: b :: l) d) with (List.last (b :: l) d).
  by rewrite !IH.
Qed.

Section Exact.
Context `{!ExactArith num}.

Lemma num_add_0_l (a : num) : (num_of_Z 0 + a = a)%num.
Proof. rewrite num_add_comm. apply num_add_0_r. Qed.

Lemma num_sub_diag (a : num) : (a - a = num_of_Z 0)%num.
Proof. rewrite <- (num_add_0_l a) at 1. apply num_add_sub. Qed.

(** Two consecutive deltas add up to the delta across both. *)
Lemma num_sub_telescope (a b c : num) : ((b - a) + (c - b) = c - a)%num.
Proof.
  rewrite <- (num_add_sub ((b - a) + (c - b))%num a).
  f_equal.
  rewrite (num_add_comm (b - a)%num), <- num_add_assoc.
  by rewrite !num_sub_add.
Qed.

Lemma translate_translate (el : Element.t num) (d1 d2 : Point.t num) :
  translate (translate el d1) d2
  = translate el (Point.mk (Point.x d1 + Point.x d2)%num
                    (Point.y d1 + Point.y d2)%num).
Proof.
  unfold translate, Element.with_xy. cbn. by rewrite <- !num_add_assoc.
Qed.

Lemma foldl_translate (ds : list (Point.t num)) : ∀ el : Element.t num,
  foldl translate el ds = translate el (vsum ds).
Proof.
  induction ds as [|d ds IH]; intros el.
  - unfold translate, vsum, Element.with_xy.
    cbn [foldl foldr Point.x Point.y]. rewrite !num_add_0_r. by destruct el.
  - cbn [foldl]. rewrite IH. apply translate_translate.
Qed.

(** The sum of the deltas is the total displacement: the last sample minus
    the start. *)
Lemma vsum_deltas (pts : list (Point.t num)) : ∀ start : Point.t num,
  vsum (deltas start pts)
  = Point.mk (Point.x (List.last pts start) - Point.x start)%num
      (Point.y (List.last pts start) - Point.y start)%num.
Proof.
  induction pts as [|p pts IH]; intros start.
  - unfold vsum. cbn [deltas foldr List.last]. by rewrite !num_sub_diag.
  - change (vsum (deltas start (p :: pts))) with
      (Point.mk (Point.x p - Point.x start + Point.x (vsum (deltas p pts)))%num
         (Point.y p - Point.y start + Point.y (vsum (deltas p pts)))%num).
    rewrite IH. cbn [Point.x Point.y].
    rewrite !num_sub_telescope. by rewrite last_cons_default.
Qed.

End Exact.

(** C3 (as amended).  During one drag gesture each pointer-move adds the
    pointer's delta since the last sample to the position of the active
    element and leaves the other elements alone, so after the moves the
    position is the initial one with the deltas added one at a time, in
    order.  Where the arithmetic is exact, this is the initial position plus
    the vector sum of the deltas, the sum is the total displacement, and two
    gestures from the same state that end at the same point leave the
    element at the same position however the displacement was sampled. *)
Theorem drag_translation s (a : nat) (el : Element.t num)
    (moves : list (DOMRect.t num * MouseEvent num)) :
  isDragging s = true → activeElement s = Some a →
  elements s !! a = Some el →
  let s' := moves_after s moves in
  let start := dragStart s in
  let ds := deltas start (samples moves) in
  let total :=
    Point.mk (Point.x (List.last (samples moves) start) - Point.x start)%num
      (Point.y (List.last (samples moves) start) - Point.y start)%num in
  elements s' !! a = Some (foldl translate el ds) ∧
  (∀ i, i ≠ a → elements s' !! i = elements s !! i) ∧
  (ExactArith num →
     elements s' !! a = Some (translate el (vsum ds)) ∧
     vsum ds = total ∧
     ∀ moves', List.last (samples moves') start
               = List.last (samples moves) start →
               elements (moves_after s moves') !! a = elements s' !! a).
Proof.
  intros Hdrag Hact Hel. cbn zeta.
  destruct (moves_after_drag moves s a el Hdrag Hact Hel) as [Ha Ho].
  split; [exact Ha|]. split; [exact Ho|].
  intros Hexact. rewrite Ha, foldl_translate, vsum_deltas.
  split; [done|]. split; [done|].
  intros moves' Hlast.
  destruct (moves_after_drag moves' s a el Hdrag Hact Hel) as [Ha' _].
  by rewrite Ha', foldl_translate, vsum_deltas, Hlast.
Qed.

(** ** Edit mode *)

Lemma count_editing_app (l1 l2 : list (Element.t num)) :
  length (List.filter editing (l1 ++ l2))
  = length (List.filter editing l1) + length (List.filter editing l2).
Proof. by rewrite List.filter_app, length_app. Qed.

(** Replacing one element changes the count by what that element
    contributes. *)
Lemma count_editing_insert (l : list (Element.t num)) :
  ∀ (i : nat) (el el' : Element.t num), l !! i = Some el →
  length (List.filter editing (<[i := el']> l))
  + (if editing el then 1 else 0)
  = length (List.filter editing l) + (if editing el' then 1 else 0).
Proof.
  induction l as [|x l IH]; intros i el el' Hi; [done|].
  destruct i as [|i].
  - injection Hi as ->. cbn.
    destruct (editing el), (editing el'); cbn; lia.
  - cbn in Hi. specialize (IH i el el' Hi).
    change (<[S i := el']> (x :: l)) with (x :: <[i := el']> l).
    cbn [List.filter]. destruct (editing x); cbn [length]; lia.
Qed.

Lemma editing_with_content (c : string) (el : Element.t num) :
  editing (Element.with_content c el) = editing el.
Proof. reflexivity. Qed.

Lemma editing_with_xy (x' y' : num) (el : Element.t num) :
  editing (Element.with_xy x' y' el) = editing el.
Proof. reflexivity. Qed.

(** Moving elements does not change which are being edited. *)
Lemma count_editing_imap_xy (f : nat → Element.t num → Element.t num)
    (l : list (Element.t num)) :
  (∀ i el, editing (f i el) = editing el) →
  length (List.filter editing (imap f l)) = length (List.filter editing l).
Proof.
  revert f. induction l as [|x l IH]; intros f Hf; [done|].
  rewrite imap_cons. cbn [List.filter]. rewrite Hf.
  destruct (editing x); cbn [length]; rewrite IH; try done;
    intros i el; apply Hf.
Qed.

(** What one event can do to the number of elements being edited: raise it
    by one if it puts an element into edit mode, and not raise it
    otherwise. *)
Lemma count_editing_step s (ev : Event num) s' :
  dispatch s ev = Ok s' →
  count_editing s' ≤ count_editing s + (if enters_edit s ev then 1 else 0).
Proof.
  unfold count_editing. destruct ev; cbn [dispatch enters_edit].
  - (* pointer-move *)
    intros [= <-]. unfold handleMouseMove.
    destruct current; [|lia]. destruct (isDragging s), (activeElement s);
      cbn; try lia.
    rewrite count_editing_imap_xy; [lia|].
    intros i el. by destruct (Nat.eqb i n).
  - (* pointer-down *)
    intros [= <-]. unfold handleMouseDown.
    destruct current; [|lia].
    destruct (strict_eq "text" (selectedTool s)).
    + cbn. rewrite count_editing_app. cbn. lia.
    + destruct (_ || _); cbn; [lia|]. destruct (activeElement s); cbn; lia.
  - (* pointer-up *)
    unfold handleMouseUp.
    destruct (isDrawing s) eqn:Hd; cbn.
    + destruct current; cbn; intros [= <-]; [|lia].
      cbn. rewrite count_editing_app. cbn. lia.
    + destruct current; cbn; [|done]. intros [= <-]. cbn. lia.
  - (* click on an element *)
    destruct (elements s !! index); intros [= <-]; cbn; lia.
  - (* double click on an element *)
    destruct (elements s !! index) as [el|] eqn:Hel; [|intros [= <-]; lia].
    destruct (strict_eq "text" (Element.type el)); [|intros [= <-]; cbn; lia].
    unfold handleTextDoubleClick, assign_at. rewrite Hel. cbn.
    intros [= <-]. cbn.
    pose proof (count_editing_insert (elements s) index el
                  (Element.with_isEditing true el) Hel) as Hc.
    change (editing (Element.with_isEditing true el)) with true in Hc.
    destruct (editing el); cbn in *; lia.
  - (* change in a textarea *)
    destruct (elements s !! index) as [el|] eqn:Hel; [|intros [= <-]; lia].
    destruct (has_textarea el); [|intros [= <-]; lia].
    unfold handleTextChange, assign_at. rewrite Hel. intros [= <-]. cbn.
    pose proof (count_editing_insert (elements s) index el
                  (Element.with_content value el) Hel) as Hc.
    rewrite editing_with_content in Hc. destruct (editing el); lia.
  - (* blur of a textarea *)
    destruct (elements s !! index) as [el|] eqn:Hel; [|intros [= <-]; lia].
    destruct (has_textarea el); [|intros [= <-]; lia].
    unfold handleTextBlur, assign_at. rewrite Hel. intros [= <-]. cbn.
    pose proof (count_editing_insert (elements s) index el
                  (Element.with_isEditing false el) Hel) as Hc.
    change (editing (Element.with_isEditing false el)) with false in Hc.
    destruct (editing el); lia.
  - (* pointer-down anywhere in the document *)
    intros [= <-]. unfold handleClickOutside.
    destruct current; [destruct contains|]; cbn; lia.
  - (* key *)
    intros [= <-]. unfold handleKeyDown. destruct (String.eqb _ _); cbn; lia.
  - (* tool button *)
    destruct (truthy (image s)) eqn:Himg; intros [= <-]; [|lia].
    rewrite handleToolSelect_loaded by done. cbn. lia.
  - (* image loaded *)
    intros [= <-]. cbn. lia.
Qed.

(** C6 (as amended).  The handlers do not keep edit mode exclusive: an event
    that puts an element into edit mode raises the number of elements being
    edited by at most one and clears no other element, and no other event
    raises it.  In every state reached from a state with at most one element
    being edited by a sequence of events that puts an element into edit mode
    only when none is being edited, at most one element has
    [isEditing = true]. *)
Theorem at_most_one_editing (evs : list (Event num)) : ∀ s s',
  count_editing s ≤ 1 →
  one_editor_at_a_time s evs = true →
  run s evs = Ok s' →
  count_editing s' ≤ 1 ∧
  ∀ ev s'', dispatch s' ev = Ok s'' →
    count_editing s'' ≤ count_editing s' + (if enters_edit s' ev then 1 else 0).
Proof.
  induction evs as [|ev evs IH]; intros s s' Hcount Hdisc Hrun.
  - injection Hrun as <-. split; [done|]. intros ev. apply count_editing_step.
  - cbn in Hrun, Hdisc. apply andb_prop in Hdisc as [Henter Hrest].
    destruct (dispatch s ev) as [s1|] eqn:Hstep; [|done].
    cbn in Hrun. apply (IH s1 s'); [|done..].
    pose proof (count_editing_step s ev s1 Hstep) as Hle.
    destruct (enters_edit s ev); [|lia].
    apply Nat.eqb_eq in Henter. lia.
Qed.

End HandlerFacts.

(** ** Export *)

(** C8.  With the reference to the composed subtree absent, Save makes no
    call and ends without an exception, and so does Copy; with the reference
    present and no data from the rasterizer, Copy makes no clipboard write
    and ends without an exception.  Neither handler takes or returns the
    state, so neither changes it. *)
Theorem export_guards (toPng : Composed → Result string)
    (toBlob : Composed → Result (option Blob)) :
  handleSave toPng None = ([], Ok tt) ∧
  handleCopyToClipboard toBlob None = ([], Ok tt) ∧
  ∀ node, toBlob node = Ok None →
    handleCopyToClipboard toBlob (Some node) = ([CallToBlob node], Ok tt).
Proof.
  split; [done|]. split; [done|].
  intros node Hblob. cbn. by rewrite Hblob.
Qed.

Lemma render_with_zoom (p : Presentation) (s : State float) (z : float) :
  render (setZoom (λ _, z) p) s = with_transform (scale z) (render p s).
Proof. reflexivity. Qed.

(** C7 (as amended).  For every zoom factor, Save and Copy hand the
    rasterizer the composed subtree as it is rendered, and the style of that
    subtree carries the transform [scale(zoom)]: the zoom is part of what the
    rasterizer is given.  Renderings of the same state that differ in the
    zoom alone differ in that transform and in nothing else, and they are the
    same input only when the zoom factors are the same. *)
Theorem export_reads_zoom (toPng : Composed → Result string)
    (toBlob : Composed → Result (option Blob))
    (p : Presentation) (s : State float) :
  let node := render p s in
  (∃ rest r, handleSave toPng (Some node) = (CallToPng node :: rest, r)) ∧
  (∃ rest r,
     handleCopyToClipboard toBlob (Some node) = (CallToBlob node :: rest, r)) ∧
  style_transform (style node) = scale (zoom p) ∧
  (∀ z, render (setZoom (λ _, z) p) s = with_transform (scale z) node ∧
        style_transform (style (render (setZoom (λ _, z) p) s)) = scale z) ∧
  (∀ z1 z2, render (setZoom (λ _, z1) p) s = render (setZoom (λ _, z2) p) s
            → z1 = z2).
Proof.
  cbn zeta. repeat split.
  - cbn. destruct (toPng _); eauto.
  - cbn. destruct (toBlob _) as [[blob|]|]; eauto.
  - intros z1 z2 Heq. rewrite !render_with_zoom in Heq.
    by injection Heq.
Qed.

(** At zoom 2 the rasterizer is given [scale(2)], at zoom 1 [scale(1)], and
    a rasterizer that looks at the transform returns different images. *)
Lemma export_depends_on_zoom :
  let unscaled := render initial_presentation loaded in
  let zoomed := render (setZoom (λ _, 2%float) initial_presentation) loaded in
  style_transform (style unscaled) = scale 1 ∧
  style_transform (style zoomed) = scale 2 ∧
  handleSave transform_probe (Some unscaled)
  = ([CallToPng unscaled; DownloadLink "edited-image.png" "unscaled"], Ok tt) ∧
  handleSave transform_probe (Some zoomed)
  = ([CallToPng zoomed; DownloadLink "edited-image.png" "scaled"], Ok tt).
Proof. cbn zeta. repeat split. Qed.

(** ** Paste *)

Lemma paste_loop_files (items : list DataTransferItem.t) :
  Forall (λ item, is_image item = true
                  → is_Some (DataTransferItem.getAsFile item)) items →
  paste_loop items
  = (omap DataTransferItem.getAsFile (List.filter is_image items), Ok tt).
Proof.
  induction items as [|item items IH]; intros Hfiles; [done|].
  apply Forall_cons in Hfiles as [Hitem Hrest].
  cbn [paste_loop List.filter]. destruct (is_image item) eqn:Himg.
  - destruct (Hitem eq_refl) as [blob Hblob]. rewrite Hblob, (IH Hrest).
    cbn. by rewrite Hblob.
  - by apply IH.
Qed.

Section Loads.
Context {num : Type} `{JsNumber num}.
Variable dataURL : Blob → string.

(** After the reads complete, in whatever order, the image is the data URL
    of the one that completed last. *)
Lemma run_load_events (completed : list Blob) : ∀ s : State num,
  ∃ s', run s (load_events dataURL completed) = Ok s' ∧
        image s' = List.last ((λ blob, Some (dataURL blob)) <$> completed)
                     (image s).
Proof.
  induction completed as [|blob completed IH]; intros s.
  - exists s. done.
  - destruct (IH (setImage (Some (dataURL blob)) s)) as (s' & Hrun & Himg).
    exists s'. split; [exact Hrun|].
    rewrite Himg. cbn [fmap list_fmap image setImage].
    by rewrite last_cons_default.
Qed.

End Loads.

(** C9 (as amended).  For every paste whose image items carry a file, the
    listener starts a read for every item whose MIME type contains "image",
    in the order of the list, and not for the first alone; every read that
    completes replaces the image, so the image left is the one whose read
    completed last.  When the list holds exactly one image item, that item,
    the first match, is the one that is read. *)
Theorem paste_reads_every_image (items : list DataTransferItem.t) :
  Forall (λ item, is_image item = true
                  → is_Some (DataTransferItem.getAsFile item)) items →
  let reads := omap DataTransferItem.getAsFile (List.filter is_image items) in
  handlePaste (Some items) = (reads, Ok tt) ∧
  length reads = length (List.filter is_image items) ∧
  (∀ item, List.filter is_image items = [item] →
           first_image items = Some item ∧
           Some <$> reads = [DataTransferItem.getAsFile item]) ∧
  ∀ (dataURL : Blob → string) (completed : list Blob) (s : State float),
    ∃ s', run s (load_events dataURL completed) = Ok s' ∧
          image s' = List.last ((λ blob, Some (dataURL blob)) <$> completed)
                       (image s).
Proof.
  intros Hfiles. cbn zeta. split; [by apply paste_loop_files|].
  assert (Himgs : Forall (λ item, is_Some (DataTransferItem.getAsFile item))
                    (List.filter is_image items)).
  { apply List.Forall_forall. intros item [Hin Himg]%List.filter_In.
    apply (proj1 (List.Forall_forall _ _) Hfiles item Hin Himg). }
  split; [|split].
  - induction Himgs as [|item l [blob Hblob] _ IH]; [done|].
    cbn. rewrite Hblob. cbn. by rewrite IH.
  - intros item Hone. unfold first_image.
    assert (Hsame : filter (λ item, is_image item = true) items
                    = List.filter is_image items).
    { clear. induction items as [|x l IH]; [done|].
      rewrite filter_cons. cbn. rewrite IH.
      destruct (is_image x); by case_decide. }
    rewrite Hsame, Hone in *. split; [done|].
    apply Forall_cons in Himgs as [[blob Hblob] _].
    cbn. by rewrite Hblob.
  - intros dataURL completed s. apply run_load_events.
Qed.

(** * The theorems at concrete inputs *)

(** select("text") twice, from a state in which the text tool is already
    active, ends with the text tool active. *)
Lemma toggle_twice_restores :
  truthy (image text_ready) = true ∧
  selectedTool text_ready = Some "text" ∧
  selectedTool (handleToolSelect "text" text_ready) = None ∧
  selectedTool (handleToolSelect "text" (handleToolSelect "text" text_ready))
  = Some "text".
Proof. repeat split. Qed.

(** The scenario of the specification: text tool, pointer-down at
    [(50, 60)]. *)
Lemma text_creation_at_50_60 :
  let s' := handleMouseDown (Some origin_Z) (mkMouseEvent 50 60)%Z
              text_ready_Z in
  elements s' =
    [Element.mk (Some "text") 50%Z 60%Z (Some "Text goes here") (Some 200%Z)
       (Some 40%Z) (Some true)] ∧
  length (elements s') = 1 ∧
  activeElement s' = Some 0 ∧
  elements s' !! 0 =
    Some (Element.mk (Some "text") 50%Z 60%Z (Some "Text goes here")
            (Some 200%Z) (Some 40%Z) (Some true)) ∧
  selectedTool s' = None.
Proof.
  exact (text_creation text_ready_Z origin_Z (mkMouseEvent 50 60)%Z eq_refl).
Defined.

(** A rectangle drawn up and to the left, from [(110, 60)] to [(10, 10)]:
    width -100, height -50. *)
Lemma draw_square_backwards :
  ∃ s',
    handleMouseUp (Some origin_Z) (mkMouseEvent 10 10)%Z
      (handleMouseDown (Some origin_Z) (mkMouseEvent 110 60)%Z square_ready_Z)
    = Ok s' ∧
    elements s' =
      [Element.mk (Some "square") 110%Z 60%Z None (Some (-100)%Z)
         (Some (-50)%Z) None] ∧
    length (elements s') = 1 ∧
    selectedTool s' = None ∧
    isDrawing s' = false ∧
    (-100 <? 0)%Z = true ∧ (-50 <? 0)%Z = true.
Proof.
  destruct (draw_gesture square_ready_Z "square" origin_Z origin_Z
              (mkMouseEvent 110 60)%Z (mkMouseEvent 10 10)%Z eq_refl
              (or_intror eq_refl))
    as (s' & Hup & Hels & Hlen & Htool & Hdraw & Hsign).
  exists s'. split; [exact Hup|]. split; [exact Hels|].
  split; [exact Hlen|]. split; [exact Htool|]. split; [exact Hdraw|].
  split.
  - exact (proj1 (Hsign Z_ExactArith) eq_refl).
  - exact (proj2 (Hsign Z_ExactArith) eq_refl).
Defined.

(** A label at [(50, 60)] dragged from [(55, 65)] over [(70, 40)] to
    [(155, 95)] ends at [(150, 90)]: moved by the sum of the deltas
    [(15, -25)] and [(85, 55)], which is the total displacement [(100, 30)],
    as it is when the pointer goes to [(155, 95)] in one move. *)
Lemma drag_label_by_100_30 :
  let moves := [ (origin_Z, mkMouseEvent 70 40)%Z;
                 (origin_Z, mkMouseEvent 155 95)%Z ] in
  elements (moves_after dragging_Z moves) !! 0
  = Some (Element.with_xy 150%Z 90%Z label_Z) ∧
  deltas (dragStart dragging_Z) (samples moves)
  = [Point.mk 15 (-25); Point.mk 85 55]%Z ∧
  vsum (deltas (dragStart dragging_Z) (samples moves))
  = Point.mk 100%Z 30%Z ∧
  elements (moves_after dragging_Z [ (origin_Z, mkMouseEvent 155 95)%Z ]) !! 0
  = elements (moves_after dragging_Z moves) !! 0.
Proof.
  cbn zeta.
  destruct (drag_translation dragging_Z 0 label_Z
              [ (origin_Z, mkMouseEvent 70 40)%Z;
                (origin_Z, mkMouseEvent 155 95)%Z ]
              eq_refl eq_refl eq_refl) as (Hfold & _ & Hexact).
  destruct (Hexact Z_ExactArith) as (_ & Hsum & Hsplit).
  split; [exact Hfold|]. split; [reflexivity|]. split; [exact Hsum|].
  exact (Hsplit [ (origin_Z, mkMouseEvent 155 95)%Z ] eq_refl).
Defined.

(** In binary64 the same gesture shape does not add up: a label at
    [x = 0.7] dragged by [+2] and then by [-2] ends at
    [0.7000000000000002], while the pointer is back where it started and the
    deltas sum to zero. *)
Lemma drag_there_and_back_rounds :
  run initial press_on_label = Ok dragging ∧
  isDragging dragging = true ∧
  activeElement dragging = Some 0 ∧
  elements dragging !! 0 = Some label ∧
  deltas (dragStart dragging) (samples there_and_back)
  = [Point.mk 2 0; Point.mk (-2) 0]%float ∧
  List.last (samples there_and_back) (dragStart dragging)
  = List.last (samples stay) (dragStart dragging) ∧
  Element.x <$> elements (moves_after dragging there_and_back) !! 0
  = Some 0.7000000000000002%float ∧
  Element.x <$> elements (moves_after dragging stay) !! 0 = Some 0.7%float ∧
  (Element.x label + (2 + -2))%float = 0.7%float ∧
  (0.7000000000000002 =? 0.7)%float = false.
Proof. repeat split; vm_compute; reflexivity. Qed.

(** Two text elements created one after the other, with no blur between,
    are both in edit mode. *)
Lemma two_labels_both_editing :
  ∃ s, run initial two_labels = Ok s ∧
       editing <$> elements s = [true; true] ∧
       count_editing s = 2.
Proof. eexists. repeat split. Qed.

(** A session in which the first label loses focus before the second is
    created: one element is in edit mode at the end. *)
Lemma session_one_editing :
  ∃ s', run initial session_Z = Ok s' ∧ length (elements s') = 2 ∧
        count_editing s' ≤ 1.
Proof.
  destruct (run initial session_Z) as [s'|err] eqn:Hrun.
  - exists s'. split; [reflexivity|]. split.
    + revert Hrun. vm_compute. by intros [= <-].
    + refine (proj1 (at_most_one_editing session_Z initial s' _ _ Hrun)).
      * vm_compute. lia.
      * vm_compute. reflexivity.
  - exfalso. revert Hrun. vm_compute. discriminate.
Defined.

(** A paste with two images starts two reads, and when they complete in the
    order they were started the image is the second, not the first match. *)
Lemma paste_two_images_reads_both :
  first_image [html_item; png_item; jpeg_item] = Some png_item ∧
  handlePaste (Some [html_item; png_item; jpeg_item])
  = ([png_blob; jpeg_blob], Ok tt) ∧
  ∃ s', run loaded (load_events base64_url [png_blob; jpeg_blob]) = Ok s' ∧
        image s' = Some (base64_url jpeg_blob).
Proof.
  split; [vm_compute; reflexivity|]. split; [vm_compute; reflexivity|].
  destruct (run_load_events base64_url [png_blob; jpeg_blob] loaded)
    as (s' & Hrun & Himg).
  exists s'. split; [exact Hrun|]. rewrite Himg. reflexivity.
Qed.

(** A paste with one image among other items reads that image. *)
Lemma paste_one_image_reads_it :
  handlePaste (Some [html_item; png_item]) = ([png_blob], Ok tt) ∧
  first_image [html_item; png_item] = Some png_item.
Proof.
  assert (Hfiles : Forall (λ item, is_image item = true
                     → is_Some (DataTransferItem.getAsFile item))
                     [html_item; png_item]).
  { repeat constructor; [discriminate | by eexists]. }
  split.
  - exact (proj1 (paste_reads_every_image [html_item; png_item] Hfiles)).
  - exact (proj1 (proj1 (proj2 (proj2
             (paste_reads_every_image [html_item; png_item] Hfiles)))
             png_item eq_refl)).
Defined.

(** * Further properties of the handlers *)

Section Sessions.
Context {num : Type} `{JsNumber num}.
Implicit Types (s : State num) (ev : Event num) (el : Element.t num).

Lemma same_shape_refl el : same_shape el el.
Proof. by repeat split. Qed.

Lemma same_shape_trans el1 el2 el3 :
  same_shape el1 el2 → same_shape el2 el3 → same_shape el1 el3.
Proof. unfold same_shape. intros (?&?&?) (?&?&?). repeat split; congruence. Qed.

(** The three ways a handler builds the next list: by appending one element,
    by mapping a function that keeps the shape over it, by replacing one
    element with one of the same shape. *)
Lemma keeps_app (l : list (Element.t num)) el0 (i : nat) el :
  l !! i = Some el → ∃ el', (l ++ [el0]) !! i = Some el' ∧ same_shape el el'.
Proof.
  intros Hi. exists el. split; [|apply same_shape_refl].
  rewrite lookup_app_l; [done|]. by eapply lookup_lt_Some.
Qed.

Lemma keeps_imap (f : nat → Element.t num → Element.t num)
    (l : list (Element.t num)) (i : nat) el :
  (∀ j x, same_shape x (f j x)) →
  l !! i = Some el → ∃ el', imap f l !! i = Some el' ∧ same_shape el el'.
Proof.
  intros Hf Hi. exists (f i el). split; [|apply Hf].
  by rewrite list_lookup_imap, Hi.
Qed.

Lemma keeps_insert (l : list (Element.t num)) (j : nat) el0 el1 (i : nat) el :
  l !! j = Some el0 → same_shape el0 el1 →
  l !! i = Some el → ∃ el', <[j := el1]> l !! i = Some el' ∧ same_shape el el'.
Proof.
  intros Hj Hshape Hi. destruct (decide (j = i)) as [->|Hne].
  - exists el1. split.
    + apply list_lookup_insert_eq. by eapply lookup_lt_Some.
    + congruence.
  - exists el. split; [|apply same_shape_refl].
    by rewrite list_lookup_insert_ne.
Qed.

Lemma assign_at_keeps (f : Element.t num → Element.t num) (index : nat) s s' :
  (∀ x, same_shape x (f x)) →
  assign_at index f s = Ok s' →
  length (elements s') = length (elements s) ∧
  ∀ i el, elements s !! i = Some el →
    ∃ el', elements s' !! i = Some el' ∧ same_shape el el'.
Proof.
  intros Hf. unfold assign_at.
  destruct (elements s !! index) as [el0|] eqn:Hidx; [|done].
  intros [= <-]. cbn. split; [apply length_insert|].
  intros i el Hi. by eapply keeps_insert.
Qed.

(** One event: no element is removed, none changes its index, type or size,
    and at most one is appended, by a pointer-down or a pointer-up only. *)
Lemma dispatch_keeps_elements s ev s' :
  dispatch s ev = Ok s' →
  (∀ i el, elements s !! i = Some el →
     ∃ el', elements s' !! i = Some el' ∧ same_shape el el') ∧
  length (elements s) ≤ length (elements s') ∧
  length (elements s')
  ≤ length (elements s) + (if may_append ev then 1 else 0).
Proof.
  assert (Hsame : ∀ s0 : State num, elements s0 = elements s →
    (∀ i el, elements s !! i = Some el →
       ∃ el', elements s0 !! i = Some el' ∧ same_shape el el') ∧
    length (elements s) ≤ length (elements s0) ∧
    ∀ k, length (elements s0) ≤ length (elements s) + k).
  { intros s0 ->. split; [|split; [done|intros; lia]].
    intros i el Hi. exists el. split; [done|apply same_shape_refl]. }
  assert (Happ : ∀ (s0 : State num) el0,
    elements s0 = elements s ++ [el0] →
    (∀ i el, elements s !! i = Some el →
       ∃ el', elements s0 !! i = Some el' ∧ same_shape el el') ∧
    length (elements s) ≤ length (elements s0) ∧
    length (elements s0) ≤ length (elements s) + 1).
  { intros s0 el0 ->. rewrite length_app. cbn.
    split; [|lia]. intros i el Hi. by apply keeps_app. }
  assert (Hassign : ∀ f index (s0 s1 : State num),
    (∀ x, same_shape x (f x)) → elements s0 = elements s →
    assign_at index f s = Ok s1 →
    (∀ i el, elements s !! i = Some el →
       ∃ el', elements s1 !! i = Some el' ∧ same_shape el el') ∧
    length (elements s) ≤ length (elements s1) ∧
    ∀ k, length (elements s1) ≤ length (elements s) + k).
  { intros f index s0 s1 Hf _ Has.
    destruct (assign_at_keeps f index s s1 Hf Has) as [Hlen Hk].
    split; [exact Hk|]. rewrite Hlen. split; [done|intros; lia]. }
  destruct ev; cbn [dispatch may_append].
  - (* pointer-move *)
    intros [= <-]. unfold handleMouseMove.
    destruct current; [|by edestruct Hsame as (?&?&?)].
    destruct (isDragging s), (activeElement s); cbn;
      try (by edestruct (Hsame (setCursorPosition (pointer t e) s))
                as (?&?&?)).
    rewrite length_imap. split; [|lia].
    intros i el Hi. apply keeps_imap; [|done].
    intros j x. destruct (Nat.eqb j n); by repeat split.
  - (* pointer-down *)
    intros [= <-]. unfold handleMouseDown.
    destruct current; [|by edestruct Hsame as (?&?&?)].
    destruct (strict_eq "text" (selectedTool s)); [by eapply Happ|].
    destruct (_ || _); [by edestruct Hsame as (?&?&?)|].
    destruct (activeElement s); by edestruct Hsame as (?&?&?).
  - (* pointer-up *)
    unfold handleMouseUp.
    destruct (isDrawing s), current; cbn; try done; intros [= <-];
      first [ by eapply Happ | by edestruct Hsame as (?&?&?) ].
  - (* click on an element *)
    destruct (elements s !! index); intros [= <-];
      by edestruct Hsame as (?&?&?).
  - (* double click on an element *)
    destruct (elements s !! index) as [el0|];
      [|intros [= <-]; by edestruct Hsame as (?&?&?)].
    destruct (strict_eq "text" (Element.type el0));
      [|intros [= <-]; by edestruct Hsame as (?&?&?)].
    unfold handleTextDoubleClick.
    destruct (assign_at index (Element.with_isEditing true) s) as [s1|]
      eqn:Has; [|done].
    cbn. intros [= <-].
    edestruct (Hassign (Element.with_isEditing true) index s s1) as (?&?&?);
      [by repeat split|done|done|]. cbn. done.
  - (* change in a textarea *)
    destruct (elements s !! index) as [el0|];
      [|intros [= <-]; by edestruct Hsame as (?&?&?)].
    destruct (has_textarea el0);
      [|intros [= <-]; by edestruct Hsame as (?&?&?)].
    intros Has.
    edestruct (Hassign (Element.with_content value) index s s') as (?&?&?);
      [by repeat split|done|done|done].
  - (* blur of a textarea *)
    destruct (elements s !! index) as [el0|];
      [|intros [= <-]; by edestruct Hsame as (?&?&?)].
    destruct (has_textarea el0);
      [|intros [= <-]; by edestruct Hsame as (?&?&?)].
    intros Has.
    edestruct (Hassign (Element.with_isEditing false) index s s') as (?&?&?);
      [by repeat split|done|done|done].
  - (* pointer-down anywhere in the document *)
    intros [= <-]. unfold handleClickOutside.
    destruct current; [destruct contains|]; by edestruct Hsame as (?&?&?).
  - (* key *)
    intros [= <-]. unfold handleKeyDown.
    destruct (String.eqb _ _); by edestruct Hsame as (?&?&?).
  - (* tool button *)
    destruct (truthy (image s)) eqn:Himg; intros [= <-];
      [|by edestruct Hsame as (?&?&?)].
    rewrite handleToolSelect_loaded by done. by edestruct Hsame as (?&?&?).
  - (* image loaded *)
    intros [= <-]. by edestruct Hsame as (?&?&?).
Qed.

(** X1.  Over a whole session no element is removed or moved to another
    index, and none changes its type or its size; the list grows by at most
    one element for each pointer-down and pointer-up. *)
Theorem run_keeps_elements (evs : list (Event num)) : ∀ s s',
  run s evs = Ok s' →
  (∀ i el, elements s !! i = Some el →
     ∃ el', elements s' !! i = Some el' ∧ same_shape el el') ∧
  length (elements s) ≤ length (elements s') ∧
  length (elements s')
  ≤ length (elements s) + length (List.filter may_append evs).
Proof.
  induction evs as [|ev evs IH]; intros s s' Hrun.
  - injection Hrun as <-. split; [|cbn; lia].
    intros i el Hi. exists el. split; [done|apply same_shape_refl].
  - cbn in Hrun. destruct (dispatch s ev) as [s1|] eqn:Hstep; [|done].
    cbn in Hrun.
    destruct (dispatch_keeps_elements s ev s1 Hstep) as (Hk1 & Hlo1 & Hhi1).
    destruct (IH s1 s' Hrun) as (Hk & Hlo & Hhi).
    split; [|split; [lia|]].
    + intros i el Hi. destruct (Hk1 i el Hi) as (el1 & Hi1 & Hs1).
      destruct (Hk i el1 Hi1) as (el' & Hi' & Hs').
      exists el'. split; [done|]. by eapply same_shape_trans.
    + cbn [List.filter]. destruct (may_append ev); cbn [length]; lia.
Qed.

(** One event keeps the active index inside the list. *)
Lemma dispatch_active_in_range s ev s' :
  active_in_range s = true → dispatch s ev = Ok s' →
  active_in_range s' = true.
Proof.
  intros Hin Hstep.
  destruct (dispatch_keeps_elements s ev s' Hstep) as (_ & Hlen & _).
  assert (Hkeep : activeElement s' = activeElement s →
                  active_in_range s' = true).
  { unfold active_in_range in *. intros ->.
    destruct (activeElement s) as [a|]; [|done].
    apply Nat.ltb_lt in Hin. apply Nat.ltb_lt. lia. }
  assert (Hnone : activeElement s' = None → active_in_range s' = true).
  { unfold active_in_range. by intros ->. }
  revert Hstep. destruct ev; cbn [dispatch].
  - intros [= <-]. apply Hkeep. unfold handleMouseMove.
    destruct current; [|done].
    destruct (isDragging s), (activeElement s) eqn:Hact; cbn; congruence.
  - intros [= <-]. clear Hkeep Hnone Hlen. unfold handleMouseDown.
    destruct current; [|done].
    destruct (strict_eq "text" (selectedTool s)).
    + unfold active_in_range. cbn. rewrite length_app. cbn.
      apply Nat.ltb_lt. lia.
    + destruct (_ || _); [exact Hin|].
      destruct (activeElement s) eqn:Hact; exact Hin.
  - unfold handleMouseUp.
    destruct (isDrawing s), current; cbn; try done; intros [= <-];
      by apply Hkeep.
  - destruct (elements s !! index) as [el|] eqn:Hidx; intros [= <-];
      [|by apply Hkeep].
    unfold active_in_range. cbn. apply Nat.ltb_lt. by eapply lookup_lt_Some.
  - destruct (elements s !! index) as [el|] eqn:Hidx;
      [|intros [= <-]; by apply Hkeep].
    destruct (strict_eq "text" (Element.type el));
      [|intros [= <-]; by apply Hkeep].
    unfold handleTextDoubleClick, assign_at. rewrite Hidx. cbn.
    intros [= <-]. unfold active_in_range. cbn. rewrite length_insert.
    apply Nat.ltb_lt. by eapply lookup_lt_Some.
  - destruct (elements s !! index) as [el|] eqn:Hidx;
      [|intros [= <-]; by apply Hkeep].
    destruct (has_textarea el); [|intros [= <-]; by apply Hkeep].
    unfold handleTextChange, assign_at. rewrite Hidx.
    intros [= <-]. by apply Hkeep.
  - destruct (elements s !! index) as [el|] eqn:Hidx;
      [|intros [= <-]; by apply Hkeep].
    destruct (has_textarea el); [|intros [= <-]; by apply Hkeep].
    unfold handleTextBlur, assign_at. rewrite Hidx.
    intros [= <-]. by apply Hkeep.
  - intros [= <-]. unfold handleClickOutside.
    destruct current; [destruct contains|];
      first [ by apply Hkeep | by apply Hnone ].
  - intros [= <-]. unfold handleKeyDown in *.
    destruct (String.eqb _ _); first [ by apply Hkeep | by apply Hnone ].
  - destruct (truthy (image s)) eqn:Himg; intros [= <-];
      [|by apply Hkeep].
    apply Hnone. by rewrite handleToolSelect_loaded.
  - intros [= <-]. by apply Hkeep.
Qed.

(** X2.  The active element is always an element of the list: from a state
    in which [activeElement] is [null] or an index into [elements], every
    session ends in such a state.  The first render is one. *)
Theorem run_active_in_range (evs : list (Event num)) : ∀ s s',
  active_in_range s = true → run s evs = Ok s' →
  active_in_range s' = true ∧
  ∀ a, activeElement s' = Some a → is_Some (elements s' !! a).
Proof.
  induction evs as [|ev evs IH]; intros s s' Hin Hrun.
  - injection Hrun as <-. split; [done|].
    intros a Ha. unfold active_in_range in Hin. rewrite Ha in Hin.
    apply lookup_lt_is_Some. by apply Nat.ltb_lt.
  - cbn in Hrun. destruct (dispatch s ev) as [s1|] eqn:Hstep; [|done].
    apply (IH s1 s'); [|done]. by eapply dispatch_active_in_range.
Qed.


(** ** Gestures *)

(** A pointer-move writes the cursor position, the elements and the drag
    start, and nothing else. *)
Lemma handleMouseMove_flags current (e : MouseEvent num) s :
  let s' := handleMouseMove current e s in
  image s' = image s ∧ selectedTool s' = selectedTool s ∧
  isDrawing s' = isDrawing s ∧ drawStart s' = drawStart s ∧
  activeElement s' = activeElement s ∧ isDragging s' = isDragging s.
Proof.
  cbn zeta. unfold handleMouseMove. destruct current; [|done].
  destruct (isDragging s) eqn:Hd, (activeElement s) eqn:Ha; cbn;
    by rewrite ?Hd, ?Ha.
Qed.

Lemma moves_after_flags (moves : list (DOMRect.t num * MouseEvent num)) :
  ∀ s, let s' := moves_after s moves in
  image s' = image s ∧ selectedTool s' = selectedTool s ∧
  isDrawing s' = isDrawing s ∧ drawStart s' = drawStart s ∧
  activeElement s' = activeElement s ∧ isDragging s' = isDragging s.
Proof.
  induction moves as [|[rect e] moves IH]; intros s; [done|].
  cbn zeta. rewrite moves_after_cons.
  destruct (IH (handleMouseMove (Some rect) e s)) as (?&?&?&?&?&?).
  destruct (handleMouseMove_flags (Some rect) e s) as (?&?&?&?&?&?).
  cbn [fst snd] in *. repeat split; congruence.
Qed.

(** With nothing to drag, pointer-moves leave the elements as they are. *)
Lemma moves_after_idle (moves : list (DOMRect.t num * MouseEvent num)) :
  ∀ s, idle s = true → elements (moves_after s moves) = elements s.
Proof.
  induction moves as [|[rect e] moves IH]; intros s Hidle; [done|].
  rewrite moves_after_cons. cbn [fst snd].
  destruct (handleMouseMove_flags (Some rect) e s) as (_&_&_&_&Ha&Hd).
  rewrite IH.
  - unfold handleMouseMove. unfold idle in Hidle.
    destruct (isDragging s); [|done].
    by destruct (activeElement s).
  - unfold idle. by rewrite Ha, Hd.
Qed.

(** [moves_after] is [run] on the pointer-move events. *)
Lemma run_move_events (moves : list (DOMRect.t num * MouseEvent num)) :
  ∀ s, run s (move_events moves) = Ok (moves_after s moves).
Proof.
  induction moves as [|m moves IH]; intros s; [done|].
  rewrite moves_after_cons. cbn. apply IH.
Qed.

Lemma moves_after_length (moves : list (DOMRect.t num * MouseEvent num)) :
  ∀ s, length (elements (moves_after s moves)) = length (elements s).
Proof.
  induction moves as [|m moves IH]; intros s; [done|].
  rewrite moves_after_cons, IH.
  destruct (dispatch_keeps_elements s (MouseMove (Some m.1) m.2)
              (handleMouseMove (Some m.1) m.2 s) eq_refl) as (_ & Hlo & Hhi).
  cbn [may_append] in Hhi. lia.
Qed.

(** X4.  While a shape is being drawn, pointer-moves have no effect on the
    outcome: with the arrow or the rectangle tool active and nothing being
    dragged, a pointer-down, any pointer-moves and a pointer-up append the
    element that the pointer-down and the pointer-up alone append, and
    change no other element. *)
Theorem draw_gesture_with_moves s (tool : string)
    (rect_d rect_u : DOMRect.t num) (down up : MouseEvent num)
    (moves : list (DOMRect.t num * MouseEvent num)) :
  selectedTool s = Some tool → tool = "arrow" ∨ tool = "square" →
  idle s = true →
  let anchor := pointer rect_d down in
  let release := pointer rect_u up in
  ∃ s',
    handleMouseUp (Some rect_u) up
      (moves_after (handleMouseDown (Some rect_d) down s) moves) = Ok s' ∧
    elements s' =
      elements s ++
      [Element.mk (Some tool) (Point.x anchor) (Point.y anchor) None
         (Some (Point.x release - Point.x anchor)%num)
         (Some (Point.y release - Point.y anchor)%num) None] ∧
    selectedTool s' = None ∧ isDrawing s' = false ∧ isDragging s' = false.
Proof.
  intros Htool Hshape Hidle. cbn zeta.
  rewrite (handleMouseDown_shape s rect_d down tool Htool Hshape).
  set (s1 := setDrawStart (pointer rect_d down) (setIsDrawing true s)).
  destruct (moves_after_flags moves s1) as (_ & Ht & Hdr & Hds & _ & _).
  pose proof (moves_after_idle moves s1 Hidle) as Hels.
  unfold handleMouseUp. rewrite Hdr. cbn.
  eexists. split; [reflexivity|]. cbn.
  rewrite Hels, Ht, Hds. subst s1. cbn. by rewrite Htool.
Qed.

(** X5.  A drag gesture: with no tool in use and an element selected, a
    pointer-down starts the drag at the pointer, the pointer-moves move the
    selected element by their deltas, and the pointer-up ends the drag
    without moving anything itself, whatever its position; the element
    stays selected, and pointer-moves after the pointer-up move nothing. *)
Theorem drag_gesture s (a : nat) el (rect_d rect_u : DOMRect.t num)
    (down up : MouseEvent num)
    (moves moves' : list (DOMRect.t num * MouseEvent num)) :
  tool_in_use s = false → isDrawing s = false →
  activeElement s = Some a → elements s !! a = Some el →
  ∃ s',
    handleMouseUp (Some rect_u) up
      (moves_after (handleMouseDown (Some rect_d) down s) moves) = Ok s' ∧
    elements s' !! a
    = Some (foldl translate el
              (deltas (pointer rect_d down) (samples moves))) ∧
    (∀ i, i ≠ a → elements s' !! i = elements s !! i) ∧
    length (elements s') = length (elements s) ∧
    isDragging s' = false ∧ activeElement s' = Some a ∧
    elements (moves_after s' moves') = elements s'.
Proof.
  intros Htool Hdraw Hact Hel.
  assert (Hdown : handleMouseDown (Some rect_d) down s
                  = setDragStart (pointer rect_d down) (setIsDragging true s)).
  { unfold handleMouseDown. unfold tool_in_use in Htool.
    apply orb_false_elim in Htool as [Htool Hsq].
    apply orb_false_elim in Htool as [Htxt Harr].
    by rewrite Htxt, Harr, Hsq, Hact. }
  rewrite Hdown.
  set (s1 := setDragStart (pointer rect_d down) (setIsDragging true s)).
  destruct (moves_after_flags moves s1) as (_ & _ & Hdr & _ & Ha & _).
  destruct (moves_after_drag moves s1 a el eq_refl Hact Hel) as [Hmoved Hrest].
  unfold handleMouseUp. rewrite Hdr. cbn. rewrite Hdraw.
  eexists. split; [reflexivity|]. cbn.
  split; [exact Hmoved|]. split; [exact Hrest|].
  split.
  { apply (moves_after_length moves s1). }
  split; [done|]. split; [by rewrite Ha|].
  by rewrite moves_after_idle.
Qed.

(** X6.  Escape and a pointer-down outside the composed image can only
    clear the selection: the state after a key or after a pointer-down
    anywhere in the document is the state before, or the state before with
    no active element; elements, tool and edit flags are as they were.
    With no element selected, both handlers change nothing. *)
Theorem deselect_only s :
  (∀ key, handleKeyDown key s = s
          ∨ handleKeyDown key s = setActiveElement None s) ∧
  (∀ current contains,
     handleClickOutside current contains s = s
     ∨ handleClickOutside current contains s = setActiveElement None s) ∧
  (activeElement s = None →
     (∀ key, handleKeyDown key s = s) ∧
     (∀ current contains, handleClickOutside current contains s = s)).
Proof.
  assert (Hkey : ∀ key, handleKeyDown key s = s
                        ∨ handleKeyDown key s = setActiveElement None s).
  { intros key. unfold handleKeyDown. destruct (String.eqb _ _); auto. }
  assert (Hclick : ∀ current contains,
            handleClickOutside current contains s = s
            ∨ handleClickOutside current contains s
              = setActiveElement None s).
  { intros [rect|] []; cbn; auto. }
  split; [exact Hkey|]. split; [exact Hclick|].
  intros Hact.
  assert (Hid : setActiveElement None s = s)
    by (destruct s; cbn in *; by subst).
  split.
  - intros key. by destruct (Hkey key) as [->| ->].
  - intros current contains.
    by destruct (Hclick current contains) as [->| ->].
Qed.

(** ** Text *)

(** X7.  Writing the content of an element and reading it back: a change
    at an index inside the list succeeds, the element then holds the new
    content, every other field of it and every other element are as they
    were, and a later change at the same index makes the earlier one
    unobservable.  A change at an index past the end throws and writes
    nothing. *)
Theorem text_change_round_trip s (index : nat) (c : string) :
  match elements s !! index with
  | Some el =>
    ∃ s', handleTextChange index c s = Ok s' ∧
      elements s' !! index = Some (Element.with_content c el) ∧
      (∀ j, j ≠ index → elements s' !! j = elements s !! j) ∧
      length (elements s') = length (elements s) ∧
      setElements (elements s) s' = s ∧
      (∀ c2, (s2 ← handleTextChange index c s; handleTextChange index c2 s2)
             = handleTextChange index c2 s)
  | None => handleTextChange index c s = Throw TypeError
  end.
Proof.
  unfold handleTextChange, assign_at.
  destruct (elements s !! index) as [el|] eqn:Hidx; [|done].
  pose proof (lookup_lt_Some _ _ _ Hidx) as Hlt.
  eexists. split; [reflexivity|]. cbn.
  split; [by apply list_lookup_insert_eq|].
  split; [by intros j Hj; apply list_lookup_insert_ne|].
  split; [apply length_insert|].
  split; [by destruct s|].
  intros c2. cbn. rewrite list_lookup_insert_eq by done. cbn.
  by rewrite list_insert_insert_eq.
Qed.

(** X8.  Entering and leaving edit mode: a double click on an element of
    the list sets its [isEditing] and selects it; the blur that follows
    clears the flag and leaves the element selected, with its content,
    position and size as before the double click; no other element
    changes, and a second blur changes nothing more. *)
Theorem edit_then_blur s (index : nat) el :
  elements s !! index = Some el →
  ∃ s1 s2,
    handleTextDoubleClick index s = Ok s1 ∧
    elements s1 !! index = Some (Element.with_isEditing true el) ∧
    activeElement s1 = Some index ∧
    handleTextBlur index s1 = Ok s2 ∧
    elements s2 !! index = Some (Element.with_isEditing false el) ∧
    activeElement s2 = Some index ∧
    (∀ j, j ≠ index → elements s2 !! j = elements s !! j) ∧
    count_editing s2 ≤ count_editing s ∧
    handleTextBlur index s2 = Ok s2.
Proof.
  intros Hidx. pose proof (lookup_lt_Some _ _ _ Hidx) as Hlt.
  unfold handleTextDoubleClick, handleTextBlur, assign_at.
  rewrite Hidx. cbn.
  eexists _, _. split; [reflexivity|]. cbn.
  split; [by apply list_lookup_insert_eq|]. split; [done|].
  rewrite list_lookup_insert_eq by done. cbn.
  split; [reflexivity|]. cbn. rewrite list_insert_insert_eq.
  split; [by apply list_lookup_insert_eq|]. split; [done|].
  split; [by intros j Hj; apply list_lookup_insert_ne|].
  split.
  - unfold count_editing. cbn.
    change (Element.with_isEditing false (Element.with_isEditing true el))
      with (Element.with_isEditing false el).
    pose proof (count_editing_insert (elements s) index el
                  (Element.with_isEditing false el) Hidx) as Hc.
    change (editing (Element.with_isEditing false el)) with false in Hc.
    destruct (editing el); lia.
  - rewrite list_lookup_insert_eq by done. cbn.
    by rewrite list_insert_insert_eq.
Qed.

(** ** Tools *)

(** X9.  Switching tools needs no deselection: with an image loaded,
    selecting one tool and then a different one leaves the second selected,
    whatever was selected before; a selection never leaves a tool other
    than the one asked for, and never touches the image, the elements or
    the gesture flags. *)
Theorem tool_switch s (toolA toolB : string) :
  truthy (image s) = true → toolA ≠ toolB →
  selectedTool (handleToolSelect toolB (handleToolSelect toolA s))
  = Some toolB ∧
  (selectedTool (handleToolSelect toolA s) = None
   ∨ selectedTool (handleToolSelect toolA s) = Some toolA) ∧
  setActiveElement (activeElement s)
    (setSelectedTool (selectedTool s) (handleToolSelect toolA s)) = s.
Proof.
  intros Himg Hne.
  assert (Himg' : truthy (image (handleToolSelect toolA s)) = true).
  { by rewrite handleToolSelect_loaded. }
  rewrite (handleToolSelect_loaded toolB _ Himg').
  rewrite !(handleToolSelect_loaded toolA s Himg). cbn.
  split; [|split].
  - destruct (strict_eq toolA (selectedTool s)); cbn; [done|].
    destruct (String.eqb toolB toolA) eqn:E; [|done].
    apply String.eqb_eq in E. congruence.
  - destruct (strict_eq toolA (selectedTool s)); auto.
  - by destruct s.
Qed.

End Sessions.

(** ** Zoom, over every factor the buttons can reach *)

(** What holds of every member of [zoom_levels] holds after every sequence
    of clicks from the initial zoom. *)
Lemma zoom_after_Forall (P : float → Prop) :
  Forall P zoom_levels → ∀ acts, P (zoom_after 1 acts).
Proof.
  intros Hall acts. apply (proj1 (List.Forall_forall _ _) Hall).
  apply zoom_after_levels. unfold zoom_levels. by left.
Qed.

Ltac check_zoom_levels acts :=
  pattern (zoom_after 1 acts); apply zoom_after_Forall; unfold zoom_levels;
  repeat (apply List.Forall_cons; [vm_compute; repeat split; auto|]);
  apply List.Forall_nil.

(** X10.  From every zoom factor the buttons can reach, a zoom-in raises the
    zoom unless it is 3, a zoom-out lowers it unless it is 0.1, and 29
    clicks on one button end exactly at its clamp: the rounding of the steps
    never keeps the zoom from reaching 3 or 0.1. *)
Theorem zoom_reaches_clamps (acts : list ZoomAction) :
  let z := zoom_after 1 acts in
  ((z <? handleZoomIn z)%float = true ∨ z = 3%float) ∧
  ((handleZoomOut z <? z)%float = true ∨ z = 0.1%float) ∧
  zoom_after z (replicate 29 ZoomIn) = 3%float ∧
  zoom_after z (replicate 29 ZoomOut) = 0.1%float.
Proof.
  cbn zeta. check_zoom_levels acts.
Qed.

(** X11.  Zoom-in undoes zoom-out: from every reachable zoom factor, a
    zoom-out that does not hit the lower clamp followed by a zoom-in gives
    back the same factor, bit for bit.  Zoom-out undoes a zoom-in that does
    not hit the upper clamp up to one rounding, [2^-52]. *)
Theorem zoom_undo (acts : list ZoomAction) :
  let z := zoom_after 1 acts in
  (handleZoomOut z = 0.1%float ∨ handleZoomIn (handleZoomOut z) = z) ∧
  (handleZoomIn z = 3%float
   ∨ (abs (handleZoomOut (handleZoomIn z) - z) <=? 0x1p-52)%float = true).
Proof.
  cbn zeta. check_zoom_levels acts.
Qed.

(** X12.  The zoom does not drift: after every sequence of clicks from the
    initial zoom the factor is within [2e-15] of one of the thirty tenths
    0.1, 0.2, ..., 3.0. *)
Theorem zoom_near_tenths (acts : list ZoomAction) :
  near_tenth (zoom_after 1 acts) = true.
Proof.
  check_zoom_levels acts.
Qed.

(** ** The rendering *)

Lemma dashed_render_element (active : option nat) (i : nat)
    (el : Element.t float) :
  dashed (render_element active i el) = true
  ↔ active = Some i ∧ editing el = false.
Proof.
  unfold dashed, render_element, editing. cbn.
  case_bool_decide as Hact; destruct (truthy_bool (Element.isEditing el));
    cbn; split; try done; intros [? ?]; done.
Qed.

(** X13.  The elements are drawn one box each, in the order of the list, at
    the position and with the size they have in the state.  A box carries
    the selection border exactly when it is the box of the active element
    and that element is not being edited, so at most one box carries it. *)
Theorem one_selection_border (p : Presentation) (s : State float) :
  let node := render p s in
  length (boxes node) = length (elements s) ∧
  (∀ i el, elements s !! i = Some el →
     ∃ b, boxes node !! i = Some b ∧
          box_left b = Element.x el ∧ box_top b = Element.y el ∧
          box_width b = Element.width el ∧
          box_height b = Element.height el ∧
          (dashed b = true ↔ activeElement s = Some i ∧ editing el = false)) ∧
  (∀ i j bi bj, boxes node !! i = Some bi → boxes node !! j = Some bj →
     dashed bi = true → dashed bj = true → i = j).
Proof.
  cbn zeta. cbn [render boxes]. split; [apply length_imap|]. split.
  - intros i el Hi. eexists. rewrite list_lookup_imap, Hi. cbn.
    split; [reflexivity|]. do 4 (split; [reflexivity|]).
    apply dashed_render_element.
  - intros i j bi bj Hi Hj Hdi Hdj.
    rewrite list_lookup_imap in Hi, Hj.
    destruct (elements s !! i) as [eli|]; [|done].
    destruct (elements s !! j) as [elj|]; [|done].
    cbn in Hi, Hj. injection Hi as <-. injection Hj as <-.
    apply dashed_render_element in Hdi as [Hi _].
    apply dashed_render_element in Hdj as [Hj _]. congruence.
Qed.

(** X14.  What is shown right after a text element is created: the new
    element is drawn as a textarea holding the placeholder text, 200 by 40
    at the pointer, the floating preview is gone, the cursor is the default
    one, and no box carries the selection border. *)
Theorem created_text_is_shown (p : Presentation) (s : State float)
    (rect : DOMRect.t float) (e : MouseEvent float) :
  selectedTool s = Some "text" →
  let node := render p (handleMouseDown (Some rect) e s) in
  boxes node !! length (elements s)
  = Some (mkElementBox (Point.x (pointer rect e)) (Point.y (pointer rect e))
            (Some 200%float) (Some 40%float) "grab" "none"
            (Textarea (Some "Text goes here"))) ∧
  length (boxes node) = S (length (elements s)) ∧
  textPreview node = None ∧
  style_cursor (style node) = "default" ∧
  (∀ i b, boxes node !! i = Some b → dashed b = false).
Proof.
  intros Htool. cbn zeta. unfold handleMouseDown. rewrite Htool. cbn.
  split; [|split; [|split; [done|split; [done|]]]].
  - rewrite list_lookup_imap, lookup_app_r by lia.
    rewrite Nat.sub_diag. cbn. unfold render_element. cbn.
    by rewrite andb_false_r.
  - rewrite length_imap, length_app. cbn. lia.
  - intros i b Hb. rewrite list_lookup_imap in Hb.
    destruct ((elements s ++ _) !! i) as [el|] eqn:Hel; [|done].
    injection Hb as <-. apply not_true_is_false.
    intros [[= <-] Hed]%dashed_render_element.
    rewrite lookup_app_r, Nat.sub_diag in Hel by lia.
    injection Hel as <-. done.
Qed.

(** ** Export outcomes *)

(** X15.  What the export handlers do to the outside.  Save never writes to
    the clipboard and Copy never offers a download; each hands the
    rasterizer the referenced node and nothing else, once.  Save offers one
    download, named "edited-image.png" and holding the rasterizer's data
    URL, exactly when the rasterizer succeeds; Copy writes one "image/png"
    item, the rasterizer's blob, exactly when there is one.  A handler ends
    with an exception exactly when the rasterizer rejects, with that
    exception, and then nothing is downloaded or written. *)
Theorem export_outcomes (toPng : Composed → Result string)
    (toBlob : Composed → Result (option Blob)) (current : option Composed) :
  let save := handleSave toPng current in
  let copy := handleCopyToClipboard toBlob current in
  clipboard_writes save.1 = [] ∧ downloads copy.1 = [] ∧
  rasterized save.1 = option_list current ∧
  rasterized copy.1 = option_list current ∧
  downloads save.1
  = match current with
    | Some node =>
      match toPng node with
      | Ok dataUrl => [("edited-image.png", dataUrl)]
      | Throw _ => []
      end
    | None => []
    end ∧
  clipboard_writes copy.1
  = match current with
    | Some node =>
      match toBlob node with
      | Ok (Some blob) => [("image/png", blob)]
      | _ => []
      end
    | None => []
    end ∧
  (∀ err, save.2 = Throw err
          ↔ ∃ node, current = Some node ∧ toPng node = Throw err) ∧
  (∀ err, copy.2 = Throw err
          ↔ ∃ node, current = Some node ∧ toBlob node = Throw err).
Proof.
  cbn zeta. destruct current as [node|]; cbn.
  - destruct (toPng node) as [url|e1] eqn:Hpng;
      destruct (toBlob node) as [[blob|]|e2] eqn:Hblob; cbn;
      repeat split; try done;
      try (intros (n & [= <-] & Hn); congruence);
      try (intros [= <-]; by exists node).
  - repeat split; try done; by intros (n & [=] & _).
Qed.

(** ** Image input *)

(** X17.  The reads a paste starts, in full: the files of the items whose
    type contains "image", in the order of the list, up to the first such
    item that has no file; the handler throws exactly when there is such an
    item, and the items after it are not looked at.  With no clipboard data
    or no image item there is no read and no exception. *)
Theorem paste_reads (items : list DataTransferItem.t) :
  let images := List.filter is_image items in
  handlePaste (Some items)
  = (omap DataTransferItem.getAsFile (take_while has_file images),
     if forallb has_file images then Ok tt else Throw TypeError) ∧
  (images = [] → handlePaste (Some items) = ([], Ok tt)) ∧
  handlePaste None = ([], Ok tt) ∧
  ∀ pre bad post,
    items = pre ++ bad :: post → is_image bad = true → has_file bad = false →
    forallb has_file (List.filter is_image pre) = true →
    handlePaste (Some items)
    = (omap DataTransferItem.getAsFile (List.filter is_image pre),
       Throw TypeError).
Proof.
  cbn zeta.
  assert (Hloop : ∀ l, paste_loop l
    = (omap DataTransferItem.getAsFile
         (take_while has_file (List.filter is_image l)),
       if forallb has_file (List.filter is_image l)
       then Ok tt else Throw TypeError)).
  { induction l as [|item l IH]; [done|].
    cbn [paste_loop List.filter]. destruct (is_image item); [|exact IH].
    cbn [take_while forallb]. unfold has_file at 1 3.
    destruct (DataTransferItem.getAsFile item) as [blob|] eqn:Hfile; [|done].
    rewrite IH. cbn. by rewrite Hfile. }
  split; [apply Hloop|]. split; [|split; [done|]].
  - intros Hnone. cbn. by rewrite Hloop, Hnone.
  - intros pre bad post -> Hbad Hnofile Hpre. cbn. rewrite Hloop.
    rewrite List.filter_app. cbn [List.filter]. rewrite Hbad.
    assert (Htake : ∀ l, forallb has_file l = true →
              take_while has_file (l ++ bad :: List.filter is_image post) = l
              ∧ forallb has_file (l ++ bad :: List.filter is_image post)
                = false).
    { induction l as [|x l IH]; cbn; [by rewrite Hnofile|].
      intros [Hx Hl]%andb_prop. rewrite Hx. cbn.
      destruct (IH Hl) as [-> ->]. done. }
    by destruct (Htake _ Hpre) as [-> ->].
Qed.

(** X18.  An item counts as an image exactly when the text "image" occurs
    somewhere in its MIME type, at whatever position; [indexOf] is then the
    position of the first occurrence, and [-1] when there is none. *)
Theorem is_image_substring (item : DataTransferItem.t) :
  let type := DataTransferItem.type item in
  (is_image item = true ↔ ∃ m, String.substring m 5 type = "image") ∧
  (∀ m : nat, indexOf type "image" = Z.of_nat m →
     String.substring m 5 type = "image" ∧
     ∀ k, k < m → String.substring k 5 type ≠ "image") ∧
  (indexOf type "image" = (-1)%Z
   ↔ ∀ m, String.substring m 5 type ≠ "image").
Proof.
  cbn zeta. unfold is_image, indexOf.
  destruct (String.index 0 "image" (DataTransferItem.type item)) as [n|]
    eqn:Hidx.
  - pose proof (String.index_correct1 _ _ _ _ Hidx) as Hat.
    pose proof (String.index_correct2 _ _ _ _ Hidx) as Hfirst.
    cbn in Hat. split; [|split].
    + split; [by exists n|]. intros _.
      destruct (Z.eqb_spec (Z.of_nat n) (-1)); [lia|done].
    + intros m Hm. apply Nat2Z.inj in Hm as <-. split; [done|].
      intros k Hk. apply Hfirst; lia.
    + split; [lia|]. intros Hno. by destruct (Hno n).
  - pose proof (λ m, String.index_correct3 0 m _ _ Hidx) as Hnone.
    cbn in Hnone. split; [|split].
    + split; [done|]. intros [m Hm]. exfalso.
      apply (Hnone m); [done|lia|done].
    + intros m Hm. lia.
    + split; [|done]. intros _ m. apply Hnone; [done|lia].
Qed.

Section ImageLoads.
Context {num : Type} `{JsNumber num}.
Variable dataURL : Blob → string.

Lemma run_load_events_frame (completed : list Blob) : ∀ s : State num,
  ∃ s', run s (load_events dataURL completed) = Ok s' ∧
        setImage (image s) s' = s.
Proof.
  induction completed as [|blob completed IH]; intros s.
  - exists s. split; [done|]. by destruct s.
  - destruct (IH (setImage (Some (dataURL blob)) s)) as (s' & Hrun & Hframe).
    exists s'. split; [exact Hrun|].
    destruct s, s'. cbn in *. injection Hframe as -> -> -> -> -> -> -> ->.
    reflexivity.
Qed.

(** X16.  Replacing the image keeps the annotations: after the reads of a
    paste or an upload complete, in whatever order, the state differs from
    the one before in the image alone; elements, the active element, the
    tool and the gesture flags are as they were.  An upload starts one read,
    of the first file chosen, and none when no file was chosen; when that
    read completes the image is the data URL of that file. *)
Theorem image_load_keeps_annotations (completed : list Blob)
    (files : option (list Blob)) (s : State num) :
  (∃ s', run s (load_events dataURL completed) = Ok s' ∧
         setImage (image s) s' = s ∧
         elements s' = elements s ∧ activeElement s' = activeElement s ∧
         selectedTool s' = selectedTool s) ∧
  handleImageUpload files = take 1 (default [] files) ∧
  run s (load_events dataURL (handleImageUpload files))
  = Ok (match head (default [] files) with
        | Some file => setImage (Some (dataURL file)) s
        | None => s
        end).
Proof.
  split; [|split].
  - destruct (run_load_events_frame completed s) as (s' & Hrun & Hframe).
    exists s'. split; [exact Hrun|]. split; [exact Hframe|].
    rewrite <- Hframe. by destruct s'.
  - by destruct files as [[|file files]|].
  - by destruct files as [[|file files]|].
Qed.

End ImageLoads.

(** * The further properties at concrete inputs *)

(** After [later_session_Z] the label is still the first element, a text
    element 200 by 40, and the list has grown by the one arrow. *)
Lemma later_session_keeps_label :
  ∃ s' el', run dragging_Z later_session_Z = Ok s' ∧
            elements s' !! 0 = Some el' ∧ same_shape label_Z el' ∧
            1 ≤ length (elements s') ∧ length (elements s') ≤ 1 + 3.
Proof.
  destruct (run dragging_Z later_session_Z) as [s'|err] eqn:Hrun.
  - destruct (run_keeps_elements later_session_Z dragging_Z s' Hrun)
      as (Hkeep & Hlo & Hhi).
    destruct (Hkeep 0 label_Z eq_refl) as (el' & Hel' & Hshape).
    exists s', el'. split; [reflexivity|]. split; [exact Hel'|].
    split; [exact Hshape|]. split; [exact Hlo|exact Hhi].
  - exfalso. revert Hrun. vm_compute. discriminate.
Defined.

(** After [later_session_Z] the active element, the arrow at index 1, is an
    element of the list. *)
Lemma later_session_active_in_range :
  ∃ s', run dragging_Z later_session_Z = Ok s' ∧
        active_in_range s' = true ∧ activeElement s' = Some 1 ∧
        is_Some (elements s' !! 1).
Proof.
  destruct (run dragging_Z later_session_Z) as [s'|err] eqn:Hrun.
  - destruct (run_active_in_range later_session_Z dragging_Z s' eq_refl Hrun)
      as (Hin & Hsome).
    assert (Hact : activeElement s' = Some 1).
    { revert Hrun. vm_compute. by intros [= <-]. }
    exists s'. split; [reflexivity|]. split; [exact Hin|].
    split; [exact Hact|]. exact (Hsome 1 Hact).
  - exfalso. revert Hrun. vm_compute. discriminate.
Defined.

(** A rectangle from [(10, 10)] to [(110, 60)] with the pointer wandering
    in between. *)
Lemma draw_square_with_moves :
  ∃ s',
    handleMouseUp (Some origin_Z) (mkMouseEvent 110 60)%Z
      (moves_after
         (handleMouseDown (Some origin_Z) (mkMouseEvent 10 10)%Z
            square_ready_Z) wander_Z) = Ok s' ∧
    elements s' =
      [Element.mk (Some "square") 10%Z 10%Z None (Some 100%Z) (Some 50%Z)
         None] ∧
    selectedTool s' = None ∧ isDrawing s' = false ∧ isDragging s' = false.
Proof.
  exact (draw_gesture_with_moves square_ready_Z "square" origin_Z origin_Z
           (mkMouseEvent 10 10)%Z (mkMouseEvent 110 60)%Z wander_Z eq_refl
           (or_intror eq_refl) eq_refl).
Defined.

(** The selected label pressed at [(55, 65)], dragged over [(70, 40)] to
    [(155, 95)] and released at [(300, 300)] ends at [(150, 90)]. *)
Lemma drag_selected_label :
  ∃ s',
    handleMouseUp (Some origin_Z) (mkMouseEvent 300 300)%Z
      (moves_after
         (handleMouseDown (Some origin_Z) (mkMouseEvent 55 65)%Z selected_Z)
         wander_Z) = Ok s' ∧
    elements s' !! 0 = Some (Element.with_xy 150%Z 90%Z label_Z) ∧
    length (elements s') = 1 ∧
    isDragging s' = false ∧ activeElement s' = Some 0 ∧
    elements (moves_after s' wander_Z) = elements s'.
Proof.
  destruct (drag_gesture selected_Z 0 label_Z origin_Z origin_Z
              (mkMouseEvent 55 65)%Z (mkMouseEvent 300 300)%Z wander_Z
              wander_Z eq_refl eq_refl eq_refl eq_refl)
    as (s' & Hup & Hel & _ & Hlen & Hdrag & Hact & Hafter).
  exists s'. split; [exact Hup|]. split; [exact Hel|].
  split; [exact Hlen|]. split; [exact Hdrag|]. split; [exact Hact|].
  exact Hafter.
Defined.

(** The selected label double-clicked and blurred: it is as it was, and
    still selected. *)
Lemma edit_then_blur_label :
  ∃ s1 s2,
    handleTextDoubleClick 0 selected_Z = Ok s1 ∧
    elements s1 !! 0 = Some (Element.with_isEditing true label_Z) ∧
    handleTextBlur 0 s1 = Ok s2 ∧
    elements s2 !! 0 = Some label_Z ∧ activeElement s2 = Some 0 ∧
    count_editing s2 ≤ 0 ∧
    handleTextBlur 0 s2 = Ok s2.
Proof.
  destruct (edit_then_blur selected_Z 0 label_Z eq_refl)
    as (s1 & s2 & Hdbl & Hel1 & _ & Hblur & Hel2 & Hact & _ & Hcount
        & Hagain).
  exists s1, s2. split; [exact Hdbl|]. split; [exact Hel1|].
  split; [exact Hblur|]. split; [exact Hel2|]. split; [exact Hact|].
  split; [exact Hcount|exact Hagain].
Defined.

(** From the text tool to the arrow tool in one click. *)
Lemma switch_text_to_arrow :
  selectedTool (handleToolSelect "arrow" (handleToolSelect "text" loaded_Z))
  = Some "arrow".
Proof.
  refine (proj1 (tool_switch loaded_Z "text" "arrow" eq_refl _)).
  discriminate.
Defined.

(** A text element created by a click at [clientX = 1] with the composed
    image 0.3 pixels in: the textarea is at [x = 0.7]. *)
Lemma created_label_is_shown :
  let node := render initial_presentation
                (handleMouseDown (Some offset_rect) (mkMouseEvent 1 0)%float
                   text_ready) in
  boxes node !! 0
  = Some (mkElementBox 0.7%float 0%float (Some 200%float) (Some 40%float)
            "grab" "none" (Textarea (Some "Text goes here"))) ∧
  length (boxes node) = 1 ∧
  textPreview node = None ∧
  style_cursor (style node) = "default" ∧
  (∀ i b, boxes node !! i = Some b → dashed b = false).
Proof.
  exact (created_text_is_shown initial_presentation text_ready offset_rect
           (mkMouseEvent 1 0)%float eq_refl).
Defined.

(** ** Handlers and rendering together *)

(** X19.  An element is drawn as a textarea exactly when it is a text
    element in edit mode, which is when its change and blur events reach
    the handlers; what is typed into it is what the textarea shows after the
    change, in the same box. *)
Theorem typed_text_is_shown (p : Presentation) (s : State float)
    (index : nat) (c : string) (el : Element.t float) :
  elements s !! index = Some el → has_textarea el = true →
  (∀ active i x, (∃ v, box_body (render_element active i x) = Textarea v)
                 ↔ has_textarea x = true) ∧
  ∃ s' b,
    dispatch s (TextareaChange index c) = Ok s' ∧
    boxes (render p s') !! index = Some b ∧
    box_body b = Textarea (Some c) ∧
    box_left b = Element.x el ∧ box_top b = Element.y el ∧
    box_width b = Element.width el ∧ box_height b = Element.height el ∧
    length (boxes (render p s')) = length (boxes (render p s)).
Proof.
  intros Hidx Harea. split.
  - intros active i x. unfold render_element, has_textarea. cbn.
    destruct (strict_eq "text" (Element.type x)); cbn.
    + destruct (truthy_bool (Element.isEditing x)); split; try done;
        [by eexists | by intros [v [=]]].
    + split; [|done]. intros [v Hv].
      destruct (strict_eq "arrow" (Element.type x));
        [|destruct (strict_eq "square" (Element.type x))]; discriminate.
  - pose proof (lookup_lt_Some _ _ _ Hidx) as Hlt.
    cbn [dispatch]. rewrite Hidx, Harea.
    unfold handleTextChange, assign_at. rewrite Hidx.
    eexists _, _. split; [reflexivity|]. cbn [render boxes].
    rewrite list_lookup_imap. cbn.
    rewrite list_lookup_insert_eq by done. cbn.
    split; [reflexivity|]. cbn.
    apply andb_prop in Harea as [Htext Hed]. unfold render_element.
    cbn. rewrite Htext, Hed.
    repeat split. by rewrite !length_imap, length_insert.
Qed.

(** X20.  Deselecting the tool while a shape is being drawn does not cancel
    the draw: the pointer-up still appends an element at the anchor with
    the signed size, but its type is the tool at the time of the
    pointer-up, which is none, and it is drawn as a box with nothing
    inside. *)
Theorem deselect_while_drawing (s : State float) (tool : string)
    (rect_d rect_u : DOMRect.t float) (down up : MouseEvent float) :
  truthy (image s) = true → selectedTool s = Some tool →
  tool = "arrow" ∨ tool = "square" →
  let anchor := pointer rect_d down in
  let release := pointer rect_u up in
  let el := Element.mk None (Point.x anchor) (Point.y anchor) None
              (Some (Point.x release - Point.x anchor)%float)
              (Some (Point.y release - Point.y anchor)%float) None in
  ∃ s',
    handleMouseUp (Some rect_u) up
      (handleToolSelect tool (handleMouseDown (Some rect_d) down s)) = Ok s' ∧
    elements s' = elements s ++ [el] ∧
    isDrawing s' = false ∧ selectedTool s' = None ∧
    ∀ active, box_body (render_element active (length (elements s)) el)
              = NoBody.
Proof.
  intros Himg Htool Hshape. cbn zeta.
  rewrite (handleMouseDown_shape s rect_d down tool Htool Hshape).
  rewrite handleToolSelect_loaded by done. cbn.
  rewrite Htool, strict_eq_Some_refl.
  unfold handleMouseUp. cbn.
  eexists. split; [reflexivity|]. done.
Qed.

(** Typing "Hello" into the label in edit mode. *)
Lemma typed_hello_is_shown :
  ∃ s' b,
    dispatch editing_label (TextareaChange 0 "Hello") = Ok s' ∧
    boxes (render initial_presentation s') !! 0 = Some b ∧
    box_body b = Textarea (Some "Hello") ∧
    box_left b = 0.7%float ∧ box_top b = 0%float ∧
    box_width b = Some 200%float ∧ box_height b = Some 40%float ∧
    length (boxes (render initial_presentation s')) = 1.
Proof.
  exact (proj2 (typed_text_is_shown initial_presentation editing_label 0
                  "Hello" label eq_refl eq_refl)).
Defined.

(** The arrow tool switched off between the pointer-down at [(10, 10)] and
    the pointer-up at [(30, 5)]. *)
Lemma arrow_deselected_while_drawing :
  ∃ s',
    handleMouseUp (Some offset_rect) (mkMouseEvent 30 5)%float
      (handleToolSelect "arrow"
         (handleMouseDown (Some offset_rect) (mkMouseEvent 10 10)%float
            arrow_ready)) = Ok s' ∧
    elements s'
    = [Element.mk None 9.6999999999999993%float 10%float None
         (Some 20%float) (Some (-5)%float) None] ∧
    isDrawing s' = false ∧ selectedTool s' = None.
Proof.
  destruct (deselect_while_drawing arrow_ready "arrow" offset_rect
              offset_rect (mkMouseEvent 10 10)%float
              (mkMouseEvent 30 5)%float eq_refl eq_refl (or_introl eq_refl))
    as (s' & Hup & Hels & Hdraw & Htool & _).
  exists s'. split; [exact Hup|]. split; [exact Hels|].
  split; [exact Hdraw|exact Htool].
Defined.
